(** * KVR Go frontend proxy: the session, transfer and change-PIN handlers

    A shallow embedding of [frontend/server.js]: the Express handlers
    [/api/login], [/api/logout], [/api/me], [/api/transfer],
    [/api/change-pin] and [/api/chess/leaderboard], together with
    [backendFetch], run against a model of the Python backend whose REST
    interface is described in the repository README.

    Conventions of the embedding.
    - JavaScript values are the values a parsed JSON body can hold, plus
      [undefined].  Numbers are IEEE binary64: the three special values
      ([NaN], [+Infinity], [-Infinity]) and the finite numbers, each held
      as the rational it denotes.  The operands of [<], [<=], [+] and [-]
      and the results of [+] and [-] are rounded to the nearest binary64
      number, ties to even, and overflow to an infinity; the sign of zero
      is not kept.
    - The two string/number conversions of the language whose full grammar
      is irrelevant to the handlers ([StringToNumber], and the printing of
      numbers other than integers below 2^53) are fields of the class
      [JsRuntime].
    - A handler runs to completion against a [World]: the backend table,
      the session store of express-session, a schedule of faults between
      the proxy and the backend, and the trace of backend calls made so
      far.  Interleaving of several requests is not modelled. *)

From Stdlib Require Import Ascii String QArith Lqa.
From stdpp Require Import base strings list gmap pretty.

Set Warnings "-register-all".

Local Open Scope string_scope.
Local Open Scope Z_scope.

(** ** JavaScript numbers *)

(** A number of the language, or of a JSON document.  [Fin q] is the
    finite number whose value is [q]: a binary64 number when it came out of
    the language, any decimal when it was written in a JSON document, which
    the comparisons and the arithmetic then read as the nearest binary64
    number. *)
Inductive JsNumber : Type :=
  | NaN
  | PInf
  | NInf
  | Fin (q : Q).

Definition Qltb (x y : Q) : bool := negb (Qle_bool y x).

Definition js_isNaN (n : JsNumber) : bool :=
  match n with NaN => true | _ => false end.

Definition js_isFinite (n : JsNumber) : bool :=
  match n with Fin _ => true | _ => false end.

Definition js_neg (a : JsNumber) : JsNumber :=
  match a with
  | NaN => NaN
  | PInf => NInf
  | NInf => PInf
  | Fin x => Fin (Qred (- x))
  end.

(** [num / den] rounded to the nearest integer, ties to the even one, for
    [0 <= num] and [0 < den]. *)
Definition round_half_even (num den : Z) : Z :=
  let k := num / den in
  match 2 * (num mod den) ?= den with
  | Lt => k
  | Gt => k + 1
  | Eq => if Z.even k then k else k + 1
  end.

(** [n / d < 2 ^ l] for positive [n] and [d]. *)
Definition below_pow2 (n d l : Z) : bool :=
  if 0 <=? l then n <? d * 2 ^ l else n * 2 ^ (- l) <? d.

(** The exponent of the unit in the last place of the binary64 numbers
    around the positive [n / d]: the [e] with [2^52 <= n / d / 2^e < 2^53],
    and -1074 below the normal range. *)
Definition ulp_exponent (n d : Z) : Z :=
  let l := Z.log2 n - Z.log2 d in
  Z.max (-1074) ((if below_pow2 n d l then l - 1 else l) - 52).

(** The binary64 number nearest to the positive [n / d], +Infinity from
    2^1024 - 2^970 on. *)
Definition round_positive (n d : Z) : JsNumber :=
  let e := ulp_exponent n d in
  if 0 <=? e then
    let m := round_half_even n (d * 2 ^ e) in
    if 2 ^ 1024 <=? m * 2 ^ e then PInf else Fin (inject_Z (m * 2 ^ e))
  else
    Fin (Qred (round_half_even (n * 2 ^ (- e)) d # Z.to_pos (2 ^ (- e)))).

(** The binary64 number nearest to [q], ties to even: the rounding the
    language applies to the exact result of an arithmetic operation. *)
Definition round64 (q : Q) : JsNumber :=
  match Qnum (Qred q) with
  | 0 => Fin 0
  | Z.pos n => round_positive (Z.pos n) (Z.pos (Qden (Qred q)))
  | Z.neg n => js_neg (round_positive (Z.pos n) (Z.pos (Qden (Qred q))))
  end.

(** The binary64 number an operand is read as.  A number that came out of
    the language is one already and is read as it is; a number written in
    a JSON document is read as the binary64 number nearest to it. *)
Definition binary64 (n : JsNumber) : JsNumber :=
  match n with
  | Fin q => round64 q
  | _ => n
  end.

(** [a < b] *)
Definition js_lt (a b : JsNumber) : bool :=
  match binary64 a, binary64 b with
  | NaN, _ | _, NaN => false
  | Fin x, Fin y => Qltb x y
  | PInf, _ => false
  | _, NInf => false
  | NInf, _ => true
  | Fin _, PInf => true
  end.

(** [a <= b] *)
Definition js_le (a b : JsNumber) : bool :=
  match binary64 a, binary64 b with
  | NaN, _ | _, NaN => false
  | Fin x, Fin y => Qle_bool x y
  | NInf, _ => true
  | _, PInf => true
  | PInf, _ => false
  | Fin _, NInf => false
  end.

(** [a + b]: the exact sum of the operands, rounded *)
Definition js_add (a b : JsNumber) : JsNumber :=
  match binary64 a, binary64 b with
  | NaN, _ | _, NaN => NaN
  | Fin x, Fin y => round64 (x + y)
  | PInf, NInf | NInf, PInf => NaN
  | PInf, _ | _, PInf => PInf
  | NInf, _ | _, NInf => NInf
  end.

(** [a - b]: the exact difference of the operands, rounded *)
Definition js_sub (a b : JsNumber) : JsNumber :=
  match binary64 a, binary64 b with
  | NaN, _ | _, NaN => NaN
  | Fin x, Fin y => round64 (x - y)
  | PInf, PInf | NInf, NInf => NaN
  | PInf, _ | _, NInf => PInf
  | NInf, _ | _, PInf => NInf
  end.

(** [a === b] on numbers *)
Definition js_num_eq (a b : JsNumber) : bool :=
  match a, b with
  | Fin x, Fin y => Qeq_bool x y
  | PInf, PInf | NInf, NInf => true
  | _, _ => false
  end.

(** ** JavaScript values *)

Inductive JsValue : Type :=
  | JUndefined
  | JNull
  | JBool (b : bool)
  | JNum (n : JsNumber)
  | JStr (s : string)
  | JArr (l : list JsValue)
  | JObj (fields : list (string * JsValue)).

(** The part of the language runtime the handlers rely on but whose
    grammar they do not depend on. *)
Class JsRuntime : Type := {
  (** [Number(s)] for a string [s] *)
  StringToNumber : string -> JsNumber;
  (** [String(x)] for a finite number other than an integer below 2^53 in
      magnitude: the shortest digits that read back as [x] *)
  FractionToString : Q -> string
}.

Definition is_undefined (v : JsValue) : bool :=
  match v with JUndefined => true | _ => false end.

(** [!!v] *)
Definition truthy (v : JsValue) : bool :=
  match v with
  | JUndefined | JNull => false
  | JBool b => b
  | JNum (Fin q) => negb (Qeq_bool q 0)
  | JNum NaN => false
  | JNum _ => true
  | JStr s => negb (String.eqb s "")
  | JArr _ | JObj _ => true
  end.

(** [a || b] *)
Definition js_or (a b : JsValue) : JsValue := if truthy a then a else b.

(** [a === b]; arrays and objects are compared by reference, and the two
    operands of every comparison in the handlers come from different JSON
    documents. *)
Definition strict_eq (a b : JsValue) : bool :=
  match a, b with
  | JUndefined, JUndefined | JNull, JNull => true
  | JBool x, JBool y => Bool.eqb x y
  | JNum x, JNum y => js_num_eq x y
  | JStr x, JStr y => String.eqb x y
  | _, _ => false
  end.

(** [Number.isSafeInteger(q)]: the integers every one of which is a
    binary64 number of its own, so that the shortest digits that read back
    as the number are all its digits. *)
Definition is_safe_integer (q : Q) : bool :=
  (Qden (Qred q) =? 1)%positive && (Z.abs (Qnum (Qred q)) <? 2 ^ 53).

Section Coercions.
Context `{JsRuntime}.

(** [String(n)] for a number *)
Definition NumberToString (n : JsNumber) : string :=
  match n with
  | NaN => "NaN"
  | PInf => "Infinity"
  | NInf => "-Infinity"
  | Fin q => if is_safe_integer q then pretty (Qnum (Qred q))
             else FractionToString q
  end.

(** [String(v)] *)
Fixpoint ToString (v : JsValue) : string :=
  match v with
  | JUndefined => "undefined"
  | JNull => "null"
  | JBool true => "true"
  | JBool false => "false"
  | JNum n => NumberToString n
  | JStr s => s
  | JArr l =>
      (fix join (l : list JsValue) : string :=
         match l with
         | [] => ""
         | x :: l' =>
             (match x with JUndefined | JNull => "" | _ => ToString x end)
               +:+ (match l' with [] => "" | _ => "," +:+ join l' end)
         end) l
  | JObj _ => "[object Object]"
  end.

(** [Number(v)] *)
Definition ToNumber (v : JsValue) : JsNumber :=
  match v with
  | JUndefined => NaN
  | JNull => Fin 0
  | JBool true => Fin 1
  | JBool false => Fin 0
  | JNum n => n
  | JStr s => StringToNumber s
  | JArr _ | JObj _ => StringToNumber (ToString v)
  end.

(** [encodeURIComponent(v)] as the backend sees it: the percent-encoded
    path segment is decoded again by the backend's router, so the
    segment that reaches the lookup is [String(v)]. *)
Definition encodeURIComponent (v : JsValue) : string := ToString v.
End Coercions.

(** ** HTTP plumbing shared by the backend and the proxy *)

Record Response : Type := { status : Z; json : JsValue }.

(** [{ error: msg }] *)
Definition error_obj (msg : string) : JsValue := JObj [("error", JStr msg)].

(** [{ message: msg }] *)
Definition message_obj (msg : string) : JsValue := JObj [("message", JStr msg)].

(** [res.json(v)] *)
Definition res_json (v : JsValue) : Response := {| status := 200; json := v |}.

(** [res.status(st).json(v)] *)
Definition res_status_json (st : Z) (v : JsValue) : Response :=
  {| status := st; json := v |}.

(** [res.ok] of the fetch API *)
Definition res_ok (r : Response) : bool := (200 <=? status r) && (status r <? 300).

(** The own property [k] of a parsed JSON object, given by the members of
    the JSON text in their order: [JSON.parse] lets a later member override
    an earlier one of the same name. *)
Definition own_property (fields : list (string * JsValue)) (k : string) : JsValue :=
  match List.find (fun p => String.eqb (fst p) k) (List.rev fields) with
  | Some p => snd p
  | None => JUndefined
  end.

(** ** The backend *)

(** The requests [server.js] sends to the backend. *)
Inductive BackendRequest : Type :=
  | GET_users (username : string)                  (* GET /users/<username> *)
  | GET_users_pin (pin : string)                   (* GET /users/pin/<pin> *)
  | PATCH_users (username : string) (body : JsValue) (* PATCH /users/<username> *)
  | GET_leaderboard_chess.                         (* GET /leaderboard/chess *)

(** Modelled from the spec: the Python backend (app.py) is not among the
    sources.  A row of its user table holds the four fields of the spec's
    Account and of the README's "Create a user" request. *)
Record UserRow : Type := {
  row_username : string;
  row_pin : string;
  row_kvrcoin : Q;
  row_chess_points : Z
}.

(** Modelled from the spec: the backend's serialisation of a row, absent
    from the sources; "{username, kvrcoin, chess_points} (PIN is never
    included in output)". *)
Definition user_to_dict (r : UserRow) : JsValue :=
  JObj [("username", JStr (row_username r));
        ("kvrcoin", JNum (Fin (row_kvrcoin r)));
        ("chess_points", JNum (Fin (inject_Z (row_chess_points r))))].

(** Modelled from the spec: the backend's lookup by username (the primary
    key), absent from the sources. *)
Definition find_user (u : string) (t : list UserRow) : option UserRow :=
  List.find (fun r => String.eqb (row_username r) u) t.

(** Modelled from the spec: the backend's lookup by PIN, absent from the
    sources; the first row with that PIN answers. *)
Definition find_pin (p : string) (t : list UserRow) : option UserRow :=
  List.find (fun r => String.eqb (row_pin r) p) t.

(** Modelled from the spec: the three column updates of the backend's
    PATCH, absent from the sources. *)
Definition set_kvrcoin (q : Q) (r : UserRow) : UserRow :=
  {| row_username := row_username r; row_pin := row_pin r;
     row_kvrcoin := q; row_chess_points := row_chess_points r |}.

Definition set_pin (p : string) (r : UserRow) : UserRow :=
  {| row_username := row_username r; row_pin := p;
     row_kvrcoin := row_kvrcoin r; row_chess_points := row_chess_points r |}.

Definition set_chess_points (z : Z) (r : UserRow) : UserRow :=
  {| row_username := row_username r; row_pin := row_pin r;
     row_kvrcoin := row_kvrcoin r; row_chess_points := z |}.

(** Modelled from the spec: the field update of PATCH /users/<username>,
    absent from the sources.  The README names kvrcoin and chess_points as
    updatable and server.js also patches pin; a field outside this set is
    ignored, and a value of the wrong JSON type makes the update invalid.
    Whether a new PIN is free is checked by [backend], against the whole
    table. *)
Definition patch_field (f : string * JsValue) (r : UserRow) : option UserRow :=
  let (k, v) := f in
  if String.eqb k "kvrcoin" then
    match v with JNum (Fin q) => Some (set_kvrcoin q r) | _ => None end
  else if String.eqb k "chess_points" then
    match v with
    | JNum (Fin q) =>
        if (Qden (Qred q) =? 1)%positive
        then Some (set_chess_points (Qnum (Qred q)) r) else None
    | _ => None
    end
  else if String.eqb k "pin" then
    match v with JStr s => Some (set_pin s r) | _ => None end
  else Some r.

(** Modelled from the spec: the fields of a PATCH body applied in order,
    absent from the sources. *)
Fixpoint patch_fields (fs : list (string * JsValue)) (r : UserRow) : option UserRow :=
  match fs with
  | [] => Some r
  | f :: fs' =>
      match patch_field f r with
      | Some r' => patch_fields fs' r'
      | None => None
      end
  end.

(** Modelled from the spec: a PATCH body, which has to be a JSON object,
    applied to a row; absent from the sources. *)
Definition patch_row (body : JsValue) (r : UserRow) : option UserRow :=
  match body with
  | JObj fs => patch_fields fs r
  | _ => None
  end.

(** Modelled from the spec: the UPDATE ... WHERE username = u of the
    backend's PATCH, absent from the sources. *)
Definition update_rows (u : string) (body : JsValue) (t : list UserRow) : list UserRow :=
  List.map (fun r => if String.eqb (row_username r) u
                     then default r (patch_row body r) else r) t.

(** Modelled from the spec: the order of the backend's chess leaderboard,
    absent from the sources; "sorted by score descending, ties broken by
    username ascending". *)
Definition ranks_before (a b : UserRow) : bool :=
  (row_chess_points b <? row_chess_points a)
  || ((row_chess_points a =? row_chess_points b)
      && String.leb (row_username a) (row_username b)).

(** Modelled from the spec: the sort behind the leaderboard, absent from
    the sources. *)
Fixpoint rank_insert (a : UserRow) (l : list UserRow) : list UserRow :=
  match l with
  | [] => [a]
  | b :: l' => if ranks_before a b then a :: l else b :: rank_insert a l'
  end.

Definition ranked (t : list UserRow) : list UserRow :=
  List.fold_right rank_insert [] t.

(** Modelled from the spec: a leaderboard entry, absent from the sources;
    "(username, score) pairs". *)
Definition leaderboard_entry (r : UserRow) : JsValue :=
  JObj [("username", JStr (row_username r));
        ("chess_points", JNum (Fin (inject_Z (row_chess_points r))))].

(** Modelled from the spec: the backend's answer for an unknown user,
    absent from the sources; the README fixes the status 404, the text of
    the body is not documented. *)
Definition user_not_found : Response :=
  res_status_json 404 (error_obj "User not found").

(** Modelled from the spec: the backend's answer to a PATCH it cannot
    apply, absent from the sources and not documented. *)
Definition invalid_update : Response :=
  res_status_json 400 (error_obj "Invalid field value").

(** Modelled from the spec: whether a PATCH body sets the pin; absent from
    the sources. *)
Definition sets_pin (body : JsValue) : bool :=
  match body with
  | JObj fs => existsb (fun f => String.eqb (fst f) "pin") fs
  | _ => false
  end.

(** Modelled from the spec: the uniqueness check of the PIN index, absent
    from the sources; "reassign must fail with PinAlreadyInUse if newPin
    already maps to a different username". *)
Definition pin_in_use (u p : string) (t : list UserRow) : bool :=
  existsb (fun r => String.eqb (row_pin r) p
                    && negb (String.eqb (row_username r) u)) t.

(** Modelled from the spec: the backend's answer to a PATCH whose PIN
    another account holds, absent from the sources; the spec names the error
    PinAlreadyInUse, its status is not documented. *)
Definition pin_already_in_use : Response :=
  res_status_json 409 (error_obj "PinAlreadyInUse").

(** Modelled from the spec: the request handling of the Python backend
    (app.py), absent from the sources, after the README's endpoint list:
    GET by username, GET by PIN, PATCH of fields, "HTTP 404 is returned when
    a user is not found"; and after the spec's PIN index, a PATCH of the pin
    to one that another account holds is refused and changes nothing.
    The result is the HTTP response and the table afterwards. *)
Definition backend (rq : BackendRequest) (t : list UserRow)
  : Response * list UserRow :=
  match rq with
  | GET_users u =>
      match find_user u t with
      | Some r => (res_json (user_to_dict r), t)
      | None => (user_not_found, t)
      end
  | GET_users_pin p =>
      match find_pin p t with
      | Some r => (res_json (user_to_dict r), t)
      | None => (user_not_found, t)
      end
  | PATCH_users u body =>
      match find_user u t with
      | None => (user_not_found, t)
      | Some r =>
          match patch_row body r with
          | None => (invalid_update, t)
          | Some r' =>
              if sets_pin body && pin_in_use u (row_pin r') t
              then (pin_already_in_use, t)
              else (res_json (user_to_dict r'), update_rows u body t)
          end
      end
  | GET_leaderboard_chess =>
      (res_json (JArr (List.map leaderboard_entry (ranked t))), t)
  end.

(** ** The world a handler runs in *)

(** What can go wrong between the proxy and the backend independently of
    the request.  The request does not reach the backend: [fetch] rejects
    (no HTTP response at all), or an HTTP 503 with an empty body is
    returned.  Or the request reaches the backend, which processes it, and
    the response does not arrive: [fetch] or [res.text()] rejects after the
    fact. *)
Inductive Fault : Type :=
  | ConnectionFailed (message : string)
  | ServiceUnavailable
  | ResponseLost (message : string).

Record World : Type := {
  (** the backend's user table *)
  users : list UserRow;
  (** the session store: [req.session.user] by session id *)
  sessions : gmap string JsValue;
  (** the fate of the next backend calls, oldest first; [None] and an
      exhausted schedule mean that the call is answered by the backend *)
  outages : list (option Fault);
  (** every backend call made so far, oldest first *)
  calls : list BackendRequest
}.

Definition set_sessions (s : gmap string JsValue) (w : World) : World :=
  {| users := users w; sessions := s; outages := outages w; calls := calls w |}.

(** One backend call has been issued: the schedule advances, the trace
    grows, the table becomes [t]. *)
Definition called (rq : BackendRequest) (t : list UserRow) (w : World) : World :=
  {| users := t; sessions := sessions w;
     outages := List.tl (outages w); calls := calls w ++ [rq] |}.

(** [fetch(url, opts)] followed by [res.text()] and the JSON parse of
    lines 36-38: either the promise rejects with a message, or there is a
    response whose body has been parsed. *)
Definition fetch (rq : BackendRequest) (w : World) : (string + Response) * World :=
  match List.hd None (outages w) with
  | Some (ConnectionFailed m) => (inl m, called rq (users w) w)
  | Some ServiceUnavailable =>
      (inr (res_status_json 503 JNull), called rq (users w) w)
  | Some (ResponseLost m) =>
      let (_, t) := backend rq (users w) in (inl m, called rq t w)
  | None =>
      let (r, t) := backend rq (users w) in (inr r, called rq t w)
  end.

(** What a handler's [catch (err)] can receive. *)
Inductive Thrown : Type :=
  (** the [Error('Backend error')] of [backendFetch], with [err.status]
      and [err.body] *)
  | BackendError (err_status : Z) (err_body : JsValue)
  (** any other exception; it has a message and no status *)
  | OtherError (message : string).

(** The body of an [async] function inside [try]: it reads and updates the
    world and either throws or returns. *)
Definition Async (A : Type) : Type := World -> (Thrown + A) * World.

Definition async_ret {A} (a : A) : Async A := fun w => (inr a, w).

Definition async_throw {A} (e : Thrown) : Async A := fun w => (inl e, w).

Definition async_bind {A B} (m : Async A) (k : A -> Async B) : Async B :=
  fun w =>
    match m w with
    | (inr a, w') => k a w'
    | (inl e, w') => (inl e, w')
    end.

Notation "'await' x <- m ;; k" := (async_bind m (fun x => k))
  (at level 100, x name, m at next level, k at level 200, right associativity,
   format "'[v' 'await'  x  <-  m  ;;  '/' k ']'").

(** [function backendFetch(pathSuffix, opts)] *)
Definition backendFetch (rq : BackendRequest) : Async JsValue :=
  fun w =>
    match fetch rq w with
    | (inl m, w') => (inl (OtherError m), w')
    | (inr res, w') =>
        if negb (res_ok res)
        then (inl (BackendError (status res) (json res)), w')
        else (inr (json res), w')
    end.

(** [v.k] for a value [v] that came out of a JSON document: reading a
    property of [null] or [undefined] throws a TypeError. *)
Definition get_property (v : JsValue) (k : string) : Async JsValue :=
  match v with
  | JUndefined =>
      async_throw (OtherError
        ("Cannot read properties of undefined (reading '" +:+ k +:+ "')"))
  | JNull =>
      async_throw (OtherError
        ("Cannot read properties of null (reading '" +:+ k +:+ "')"))
  | JObj fields => async_ret (own_property fields k)
  | _ => async_ret JUndefined
  end.

(** The [catch (err)] block shared by all handlers:
    [if (err.status) return res.status(err.status).json(err.body || { error: 'backend' });
     return res.status(500).json({ error: err.message });] *)
Definition on_error (err : Thrown) : Response :=
  match err with
  | BackendError st body =>
      if negb (st =? 0)
      then res_status_json st (js_or body (error_obj "backend"))
      else res_status_json 500 (error_obj "Backend error")
  | OtherError m => res_status_json 500 (error_obj m)
  end.

(** [try { ... } catch (err) { ... }] *)
Definition try_catch (m : Async Response) (w : World) : Response * World :=
  match m w with
  | (inr r, w') => (r, w')
  | (inl e, w') => (on_error e, w')
  end.

(** A request as a handler sees it: the session id express-session has
    attached to it (that of the cookie, or a fresh one) and the parsed
    body. *)
Record Request : Type := { sessionID : string; body : JsValue }.

(** [req.session.user] *)
Definition session_user (req : Request) (w : World) : JsValue :=
  default JUndefined (sessions w !! sessionID req).

(** The field [k] of [const { ... } = req.body || {}]. *)
Definition body_field (req : Request) (k : string) : JsValue :=
  match js_or (body req) (JObj []) with
  | JObj fields => own_property fields k
  | _ => JUndefined
  end.

(** [JSON.stringify({ kvrcoin: n })], as the backend parses it: a number
    that is not finite is serialised as [null]. *)
Definition kvrcoin_body (n : JsNumber) : JsValue :=
  JObj [("kvrcoin", if js_isFinite n then JNum n else JNull)].

(** [JSON.stringify({ pin: s })] *)
Definition pin_body (s : string) : JsValue := JObj [("pin", JStr s)].

(** ** The handlers of server.js *)

Section Handlers.
Context `{JsRuntime}.

(** [app.post('/api/login', ...)] *)
Definition login (req : Request) (w : World) : Response * World :=
  let username := body_field req "username" in
  let pin := body_field req "pin" in
  if negb (truthy username) || is_undefined pin
  then (res_status_json 400 (error_obj "username and pin required"), w)
  else
    try_catch
      (await user <- backendFetch (GET_users_pin (encodeURIComponent pin));;
       if negb (truthy user) then
         async_ret (res_status_json 401 (error_obj "Invalid username or pin"))
       else
         await name <- get_property user "username";;
         if negb (strict_eq name username) then
           async_ret (res_status_json 401 (error_obj "Invalid username or pin"))
         else
           fun w' =>
             (inr (res_json (JObj [("message", JStr "ok"); ("user", user)])),
              set_sessions (<[sessionID req := username]> (sessions w')) w'))
      w.

(** [app.post('/api/logout', ...)]: [req.session.destroy] removes the
    session from the store and then calls back. *)
Definition logout (req : Request) (w : World) : Response * World :=
  (res_json (message_obj "logged out"),
   set_sessions (delete (sessionID req) (sessions w)) w).

(** [app.get('/api/me', ...)] *)
Definition me (req : Request) (w : World) : Response * World :=
  let username := session_user req w in
  if negb (truthy username)
  then (res_status_json 401 (error_obj "not authenticated"), w)
  else
    try_catch
      (await user <- backendFetch (GET_users (encodeURIComponent username));;
       async_ret (res_json user))
      w.

(** [app.post('/api/transfer', ...)] *)
Definition transfer (req : Request) (w : World) : Response * World :=
  let from := session_user req w in
  let to := body_field req "to" in
  let amount := body_field req "amount" in
  if negb (truthy from)
  then (res_status_json 401 (error_obj "not authenticated"), w)
  else if negb (truthy to) || is_undefined amount
  then (res_status_json 400 (error_obj "to and amount required"), w)
  else
    let amt := ToNumber amount in
    if js_isNaN amt || js_le amt (Fin 0)
    then (res_status_json 400 (error_obj "invalid amount"), w)
    else
      try_catch
        (await sender <- backendFetch (GET_users (encodeURIComponent from));;
         await receiver <- backendFetch (GET_users (encodeURIComponent to));;
         await sender_kvrcoin <- get_property sender "kvrcoin";;
         if js_lt (ToNumber sender_kvrcoin) amt then
           async_ret (res_status_json 400 (error_obj "insufficient funds"))
         else
           await _ <- backendFetch
                        (PATCH_users (encodeURIComponent from)
                           (kvrcoin_body (js_sub (ToNumber sender_kvrcoin) amt)));;
           await receiver_kvrcoin <- get_property receiver "kvrcoin";;
           await _ <- backendFetch
                        (PATCH_users (encodeURIComponent to)
                           (kvrcoin_body (js_add (ToNumber receiver_kvrcoin) amt)));;
           await updatedSender <-
             backendFetch (GET_users (encodeURIComponent from));;
           async_ret
             (res_json (JObj [("message", JStr "ok"); ("user", updatedSender)])))
        w.

(** [app.post('/api/change-pin', ...)] *)
Definition change_pin (req : Request) (w : World) : Response * World :=
  let username := session_user req w in
  let new_pin := body_field req "new_pin" in
  let old_pin := body_field req "old_pin" in
  if negb (truthy username)
  then (res_status_json 401 (error_obj "not authenticated"), w)
  else if is_undefined new_pin || is_undefined old_pin
  then (res_status_json 400 (error_obj "new_pin and old_pin required"), w)
  else
    try_catch
      (await userByOldPin <-
         backendFetch (GET_users_pin (encodeURIComponent old_pin));;
       if negb (truthy userByOldPin) then
         async_ret (res_status_json 401 (error_obj "Old PIN is incorrect"))
       else
         await name <- get_property userByOldPin "username";;
         if negb (strict_eq name username) then
           async_ret (res_status_json 401 (error_obj "Old PIN is incorrect"))
         else
           await updated <-
             backendFetch (PATCH_users (encodeURIComponent username)
                             (pin_body (ToString new_pin)));;
           async_ret (res_json updated))
      w.

(** [app.get('/api/chess/leaderboard', ...)] *)
Definition chess_leaderboard (req : Request) (w : World) : Response * World :=
  try_catch
    (await lb <- backendFetch GET_leaderboard_chess;;
     async_ret (res_json lb))
    w.

(** The routes of the application. *)
Inductive Route : Type :=
  | POST_api_login
  | POST_api_logout
  | GET_api_me
  | POST_api_transfer
  | POST_api_change_pin
  | GET_api_chess_leaderboard.

Definition handle (r : Route) : Request -> World -> Response * World :=
  match r with
  | POST_api_login => login
  | POST_api_logout => logout
  | GET_api_me => me
  | POST_api_transfer => transfer
  | POST_api_change_pin => change_pin
  | GET_api_chess_leaderboard => chess_leaderboard
  end.
End Handlers.

(** ** An executable runtime

    [StringToNumber] after the StringNumericLiteral grammar of ECMAScript
    (ASCII white space trimmed, the empty string is 0, signed decimal
    literals with fraction and exponent, signed Infinity, unsigned 0x, 0o and
    0b literals, NaN otherwise), rounded to binary64.  [FractionToString]
    after Number::toString: the shortest decimal digits that read back as
    the number, in fixed notation from 1e-6 up to 1e21 and in exponent
    notation outside. *)

Module Reference.

Definition is_white_space (c : ascii) : bool :=
  let n := N_of_ascii c in ((n =? 32) || ((9 <=? n) && (n <=? 13)))%N.

Fixpoint trim_start (s : string) : string :=
  match s with
  | String c s' => if is_white_space c then trim_start s' else s
  | EmptyString => EmptyString
  end.

Definition trim (s : string) : string :=
  String.rev (trim_start (String.rev (trim_start s))).

Definition digit_value (c : ascii) : option N :=
  let n := N_of_ascii c in
  (if (48 <=? n) && (n <=? 57) then Some (n - 48)
   else if (97 <=? n) && (n <=? 102) then Some (n - 87)
   else if (65 <=? n) && (n <=? 70) then Some (n - 55)
   else None)%N.

(** The longest prefix of digits in [base]: its value, its length and
    the rest of the string. *)
Fixpoint read_digits (base : N) (s : string) (acc : N) (len : nat)
  : N * nat * string :=
  match s with
  | String c s' =>
      match digit_value c with
      | Some d => if (d <? base)%N
                  then read_digits base s' (acc * base + d)%N (S len)
                  else (acc, len, s)
      | None => (acc, len, s)
      end
  | EmptyString => (acc, len, s)
  end.

Definition read_sign (s : string) : bool * string :=
  match s with
  | String "+" s' => (false, s')
  | String "-" s' => (true, s')
  | _ => (false, s)
  end.

(** m * 10^e *)
Definition scale (m : Z) (e : Z) : Q :=
  if 0 <=? e then inject_Z (m * 10 ^ e) else Qred (m # Z.to_pos (10 ^ (- e))).

(** The binary64 number for the magnitude [q] and a sign. *)
Definition of_magnitude (negative : bool) (q : Q) : JsNumber :=
  if negative then js_neg (round64 q) else round64 q.

Definition read_exponent (s : string) : option Z :=
  match s with
  | EmptyString => Some 0
  | String c s' =>
      if (N_of_ascii c =? 101)%N || (N_of_ascii c =? 69)%N then
        let (neg, s1) := read_sign s' in
        match read_digits 10 s1 0%N 0%nat with
        | (_, O, _) => None
        | (e, _, EmptyString) => Some (if neg then - Z.of_N e else Z.of_N e)
        | _ => None
        end
      else None
  end.

Definition read_decimal (negative : bool) (s : string) : JsNumber :=
  let '(a, na, s1) := read_digits 10 s 0%N 0%nat in
  let '(b, nb, s2) :=
    match s1 with
    | String "." s' => read_digits 10 s' 0%N 0%nat
    | _ => (0%N, 0%nat, s1)
    end in
  match (na + nb)%nat, read_exponent s2 with
  | O, _ | _, None => NaN
  | _, Some e =>
      of_magnitude negative
        (scale (Z.of_N (a * 10 ^ N.of_nat nb + b)) (e - Z.of_nat nb))
  end.

Definition read_radix (base : N) (s : string) : JsNumber :=
  match read_digits base s 0%N 0%nat with
  | (_, O, _) => NaN
  | (v, _, EmptyString) => of_magnitude false (inject_Z (Z.of_N v))
  | _ => NaN
  end.

Definition string_to_number (s : string) : JsNumber :=
  match trim s with
  | EmptyString => Fin 0
  | String "0" (String "x" s') | String "0" (String "X" s') => read_radix 16 s'
  | String "0" (String "o" s') | String "0" (String "O" s') => read_radix 8 s'
  | String "0" (String "b" s') | String "0" (String "B" s') => read_radix 2 s'
  | t =>
      let (neg, t') := read_sign t in
      if String.eqb t' "Infinity" then (if neg then NInf else PInf)
      else read_decimal neg t'
  end.

(** The [n] with [10^(n-1) <= x < 10^n] for a positive [x], searched
    upwards from an estimate below it. *)
Fixpoint decimal_exponent_from (fuel : nat) (x : Q) (n : Z) : Z :=
  match fuel with
  | O => n
  | S fuel' =>
      if Qltb x (scale 1 n) then n else decimal_exponent_from fuel' x (n + 1)
  end.

Definition decimal_exponent (x : Q) : Z :=
  let l := Z.log2 (Qnum x) - Z.log2 (Z.pos (Qden x)) in
  decimal_exponent_from 6 x (l * 30103 / 100000 - 2).

(** The integer [s] next to [x / 10^(n0-k)] for which [s * 10^(n0-k)] reads
    back as [x], the nearer one when both neighbours do. *)
Definition digits_with (x : Q) (n0 k : Z) : option Z :=
  let unit := scale 1 (n0 - k) in
  let lo := Qnum (Qred (x / unit)) / Z.pos (Qden (Qred (x / unit))) in
  let hi := lo + 1 in
  let vlo := (inject_Z lo * unit)%Q in
  let vhi := (inject_Z hi * unit)%Q in
  match js_num_eq (round64 vlo) (Fin x), js_num_eq (round64 vhi) (Fin x) with
  | true, true =>
      match (x - vlo ?= vhi - x)%Q with
      | Lt => Some lo
      | Gt => Some hi
      | Eq => Some (if Z.even lo then lo else hi)
      end
  | true, false => Some lo
  | false, true => Some hi
  | false, false => None
  end.

(** The least number of digits [k] from which [x] can be read back, with
    those digits; 17 digits are enough for every binary64 number. *)
Fixpoint shortest_digits (fuel : nat) (x : Q) (n0 k : Z) : Z * Z :=
  match fuel with
  | O => (Qnum x * 10 ^ (k - n0) / Z.pos (Qden x), k)
  | S fuel' =>
      match digits_with x n0 k with
      | Some s => (s, k)
      | None => shortest_digits fuel' x n0 (k + 1)
      end
  end.

Fixpoint strip_zeros (fuel : nat) (s : Z) : Z :=
  match fuel with
  | O => s
  | S fuel' =>
      if (0 <? s) && (s mod 10 =? 0) then strip_zeros fuel' (s / 10) else s
  end.

Fixpoint zeros (n : nat) : string :=
  match n with
  | O => ""
  | S n' => "0" +:+ zeros n'
  end.

(** The notation of Number::toString for the digits [d1 ... dk] and the
    value [0.d1...dk * 10^n]. *)
Definition notation (digits : string) (n : Z) : string :=
  let k := Z.of_nat (String.length digits) in
  if (k <=? n) && (n <=? 21) then digits +:+ zeros (Z.to_nat (n - k))
  else if (0 <? n) && (n <=? 21) then
    substring 0 (Z.to_nat n) digits +:+ "."
      +:+ substring (Z.to_nat n) (Z.to_nat (k - n)) digits
  else if (-6 <? n) && (n <=? 0) then
    "0." +:+ zeros (Z.to_nat (- n)) +:+ digits
  else
    let exponent :=
      (if 0 <=? n - 1 then "e+" else "e-") +:+ pretty (Z.abs (n - 1)) in
    if k =? 1 then digits +:+ exponent
    else substring 0 1 digits +:+ "."
           +:+ substring 1 (Z.to_nat (k - 1)) digits +:+ exponent.

Definition positive_to_string (x : Q) : string :=
  let n0 := decimal_exponent x in
  let (s, k) := shortest_digits 17 x n0 1 in
  notation (pretty (strip_zeros 20 s))
    (n0 - k + Z.of_nat (String.length (pretty s))).

(** [String(q)] for a finite number: the shortest digits that read back
    as the binary64 number [q] denotes. *)
Definition number_to_string (q : Q) : string :=
  match round64 q with
  | Fin x =>
      match Qnum x with
      | 0 => "0"
      | Z.pos _ => positive_to_string x
      | Z.neg _ => "-" +:+ positive_to_string (Qred (- x))
      end
  | PInf => "Infinity"
  | NInf => "-Infinity"
  | NaN => "NaN"
  end.

#[export] Instance runtime : JsRuntime :=
  {| StringToNumber := string_to_number;
     FractionToString := number_to_string |}.

End Reference.

(** ** A small bank used in the examples *)

Definition alice : UserRow :=
  {| row_username := "alice"; row_pin := "1111";
     row_kvrcoin := 100; row_chess_points := 50 |}.

Definition bob : UserRow :=
  {| row_username := "bob"; row_pin := "2222";
     row_kvrcoin := 10; row_chess_points := 80 |}.

Definition carol : UserRow :=
  {| row_username := "carol"; row_pin := "3333";
     row_kvrcoin := 0; row_chess_points := 80 |}.

(** Alice is logged in under session id "sid-alice"; the backend is up. *)
Definition bank : World :=
  {| users := [alice; bob; carol];
     sessions := {[ "sid-alice" := JStr "alice" ]};
     outages := [];
     calls := [] |}.

(** The same bank when the fourth backend call from now is answered 503. *)
Definition bank_outage_at_credit : World :=
  {| users := users bank; sessions := sessions bank;
     outages := [None; None; None; Some ServiceUnavailable];
     calls := [] |}.

(** The same bank when the answer to the third backend call from now is
    lost on its way back. *)
Definition bank_response_lost_at_debit : World :=
  {| users := users bank; sessions := sessions bank;
     outages := [None; None; Some (ResponseLost "socket hang up")];
     calls := [] |}.

(** An account whose balance is 2^53, the first integer whose successor
    is not a binary64 number. *)
Definition vault : UserRow :=
  {| row_username := "vault"; row_pin := "5353";
     row_kvrcoin := 9007199254740992; row_chess_points := 0 |}.

(** The bank with the vault among its accounts. *)
Definition bank_with_vault : World :=
  {| users := [alice; bob; carol; vault];
     sessions := sessions bank;
     outages := [];
     calls := [] |}.

Definition post (sid : string) (fields : list (string * JsValue)) : Request :=
  {| sessionID := sid; body := JObj fields |}.

(** The balance of [u] in a table. *)
Definition balance (u : string) (t : list UserRow) : option Q :=
  row_kvrcoin <$> find_user u t.




(** Every balance in the table is non-negative. *)
Definition nonneg_balances (t : list UserRow) : Prop :=
  Forall (fun r => (0 <= row_kvrcoin r)%Q) t.

(** The next [n] backend calls reach the backend. *)
Definition backend_up (n : nat) (w : World) : Prop :=
  Forall (fun o => o = None) (List.firstn n (outages w)).

(** The number of backend calls made between two worlds. *)
Definition calls_made (w w' : World) : nat :=
  (length (calls w') - length (calls w))%nat.

(** The fault that awaits the backend call number [n] from now, counting
    from 0. *)
Definition fault_at (n : nat) (w : World) : option Fault :=
  List.nth n (outages w) None.

(** The table after a PATCH that sets the balance of [u] to [q]. *)
Definition with_balance (u : string) (q : Q) (t : list UserRow) : list UserRow :=
  update_rows u (kvrcoin_body (Fin q)) t.

(** The five backend calls of a transfer of [amt] from [from], whose
    balance was read as [s], to [to], whose balance was read as [r]: lines
    86, 87, 91, 92 and 94. *)
Definition transfer_calls (from to : string) (s r : Q) (amt : JsNumber)
  : list BackendRequest :=
  [GET_users from; GET_users to;
   PATCH_users from (kvrcoin_body (js_sub (Fin s) amt));
   PATCH_users to (kvrcoin_body (js_add (Fin r) amt));
   GET_users from].

(** The requests that only read. *)
Definition is_read (rq : BackendRequest) : bool :=
  match rq with
  | PATCH_users _ _ => false
  | _ => true
  end.

(** ** What [backendFetch] adds to the options of a call *)

(** The [opts] of [fetch]: the method, the body (a string when present)
    and the headers (absent, or an object from header name to string). *)
Record FetchOpts : Type := {
  opt_method : option string;
  opt_body : option string;
  opt_headers : option (gmap string string)
}.

(** Lines 30-34 of [backendFetch], for the API key [API_KEY] of line 11:
    [opts.headers = opts.headers || {}; opts.headers['X-API-Key'] = API_KEY;
     if (opts.body && !opts.headers['Content-Type'])
       opts.headers['Content-Type'] = 'application/json';] *)
Definition backendFetch_opts (API_KEY : string) (opts : FetchOpts) : FetchOpts :=
  let headers := default ∅ (opt_headers opts) in
  let headers := <["X-API-Key" := API_KEY]> headers in
  let headers :=
    if truthy (default JUndefined (JStr <$> opt_body opts))
       && negb (truthy (default JUndefined (JStr <$> headers !! "Content-Type")))
    then <["Content-Type" := "application/json"]> headers
    else headers in
  {| opt_method := opt_method opts; opt_body := opt_body opts;
     opt_headers := Some headers |}.

(** ** The scripts of the pages *)

(** A number after [JSON.stringify] in the page and the JSON parse of the
    server: a number that is not finite arrives as [null]. *)
Definition JSON_number (n : JsNumber) : JsValue :=
  if js_isFinite n then JNum n else JNull.

(** [async function postJSON(path, data)] once the response [res] is there:
    [inl t] when [t] is thrown, [inr v] when [v] is returned.  The body of
    every response of the server is JSON, so [res.json()] does not fail. *)
Definition postJSON (res : Response) : JsValue + JsValue :=
  if negb (res_ok res)
  then inl (js_or (json res) (error_obj "request failed"))
  else inr (json res).

(** [v.k] outside the server: [None] stands for the TypeError of reading a
    property of [null] or [undefined]. *)
Definition read_property (v : JsValue) (k : string) : option JsValue :=
  match v with
  | JUndefined | JNull => None
  | JObj fields => Some (own_property fields k)
  | _ => Some JUndefined
  end.

(** [lb.findIndex(r => r.username === currentUser)], counting from [i]:
    the first index whose row has that username, -1 when there is none,
    [None] when the callback throws before a match. *)
Fixpoint findIndex_username (currentUser : JsValue) (lb : list JsValue) (i : Z)
  : option Z :=
  match lb with
  | [] => Some (-1)
  | r :: lb' =>
      match read_property r "username" with
      | None => None
      | Some u =>
          if strict_eq u currentUser then Some i
          else findIndex_username currentUser lb' (i + 1)
      end
  end.

(** The slice [start, end) of the leaderboard that the second page script
    shows, for a board of [len] rows and the index [idx] of the current
    user (-1 when absent): lines 338-347. *)
Definition leaderboard_window (len idx : Z) : Z * Z :=
  let start := 0 in
  let end_ := Z.min len 5 in
  if 0 <=? idx then
    let start := Z.max 0 (idx - 2) in
    let end_ := Z.min len (idx + 3) in
    if end_ - start <? 5 then
      if start =? 0 then (start, Z.min len (start + 5))
      else if end_ =? len then (Z.max 0 (end_ - 5), end_)
      else (start, end_)
    else (start, end_)
  else (start, end_).

(** The double quote, for the attribute values in the markup. *)
Definition dquote : string := String (ascii_of_nat 34) EmptyString.

(** One list item of the leaderboard: its class and its markup. *)
Record Item : Type := { className : string; innerHTML : string }.

(** What the leaderboard element holds after [loadLeaderboard]: the text
    "No leaderboard data", or the items appended; [complete] is false when
    an exception ended the function early (it is caught and logged). *)
Inductive Board : Type :=
  | NoLeaderboardData
  | Listed (items : list Item) (complete : bool).

Section Pages.
Context `{JsRuntime}.

(** The body of the loop of lines 349-356 for the row at index [i]. *)
Definition leaderboard_item (currentUser : JsValue) (i : Z) (row : JsValue)
  : option Item :=
  match read_property row "username", read_property row "chess_points" with
  | Some username, Some chess_points =>
      Some {| className := if strict_eq username currentUser
                           then "current-user" else "";
              innerHTML :=
                "<div><strong>#" +:+ NumberToString (Fin (inject_Z (i + 1)))
                  +:+ "</strong> " +:+ ToString username
                  +:+ "</div><div class=" +:+ dquote +:+ "small" +:+ dquote
                  +:+ ">" +:+ ToString chess_points +:+ "</div>" |}
  | _, _ => None
  end.

(** [for (let i = start; i < end; i++)], [n] iterations from [i] on. *)
Fixpoint leaderboard_items (currentUser : JsValue) (lb : list JsValue)
    (i : Z) (n : nat) : list Item * bool :=
  match n with
  | O => ([], true)
  | S n' =>
      match leaderboard_item currentUser i
              (if i <? 0 then JUndefined
               else default JUndefined (lb !! Z.to_nat i)) with
      | None => ([], false)
      | Some item =>
          let (items, complete) := leaderboard_items currentUser lb (i + 1) n' in
          (item :: items, complete)
      end
  end.

(** [async function loadLeaderboard()] of the second page script (lines
    328-358), from the answer [lb] of [/api/chess/leaderboard] and the
    [currentUser] that [loadMe] has stored. *)
Definition loadLeaderboard (currentUser : JsValue) (lb : JsValue) : Board :=
  match lb with
  | JArr rows =>
      if (Z.of_nat (length rows) =? 0) then NoLeaderboardData
      else
        match (if truthy currentUser
               then findIndex_username currentUser rows 0
               else Some (-1)) with
        | None => Listed [] false
        | Some idx =>
            let (start, end_) := leaderboard_window (Z.of_nat (length rows)) idx in
            let (items, complete) :=
              leaderboard_items currentUser rows start (Z.to_nat (end_ - start)) in
            Listed items complete
        end
  | _ => NoLeaderboardData
  end.

(** The body the transfer form posts (all three page scripts):
    [{ to, amount }] with [amount = Number(fd.get('amount'))]. *)
Definition transferForm_body (to amount : string) : JsValue :=
  JObj [("to", JStr to); ("amount", JSON_number (StringToNumber amount))].

(** The change-PIN dialog of the first page script (lines 199-212): [None]
    when it alerts and posts nothing, else the body
    [{ new_pin: Number(new_pin) }] it posts. *)
Definition changePinModalForm_body (new_pin confirm_pin : string)
  : option JsValue :=
  if negb (truthy (JStr new_pin)) || negb (truthy (JStr confirm_pin)) then None
  else if negb (String.eqb new_pin confirm_pin) then None
  else Some (JObj [("new_pin", JSON_number (StringToNumber new_pin))]).

(** The change-PIN form of the third page script (lines 427-436): the body
    [{ new_pin }] with [new_pin = Number(fd.get('new_pin'))]. *)
Definition changePinForm_body (new_pin : string) : JsValue :=
  JObj [("new_pin", JSON_number (StringToNumber new_pin))].
End Pages.

(** ** Vocabulary of the further properties *)

(** The handlers behind which a user must be logged in. *)
Definition needs_session (r : Route) : bool :=
  match r with
  | GET_api_me | POST_api_transfer | POST_api_change_pin => true
  | _ => false
  end.

(** A row of the leaderboard is a JSON object. *)
Definition is_object (v : JsValue) : bool :=
  match v with JObj _ => true | _ => false end.

(** What the catch block answers when the backend call fails with [f]. *)
Definition outage_response (f : Fault) : Response :=
  match f with
  | ConnectionFailed m | ResponseLost m => res_status_json 500 (error_obj m)
  | ServiceUnavailable => res_status_json 503 (error_obj "backend")
  end.

(** An async computation whose every run relates the worlds by [R]. *)
Definition respects (R : World -> World -> Prop) {A} (m : Async A) : Prop :=
  forall w x w', m w = (x, w') -> R w w'.

(** An async computation that only returns responses satisfying [P]. *)
Definition returns {A} (P : A -> Prop) (m : Async A) : Prop :=
  forall w a w', m w = (inr a, w') -> P a.

(** A response whose status is an error carries a truthy body. *)
Definition error_has_body (r : Response) : Prop :=
  res_ok r = false -> truthy (json r) = true.

(** The backend calls a route may make for a request that arrives in the
    world [w]: any read, and of the writes only the PATCH of a balance of
    the sender or the receiver by [/api/transfer] and the PATCH of the
    session user's PIN by [/api/change-pin]. *)
Definition allowed_call `{JsRuntime} (route : Route) (req : Request) (w : World)
    (rq : BackendRequest) : Prop :=
  match rq with
  | PATCH_users u patch =>
      match route with
      | POST_api_transfer =>
          (u = ToString (session_user req w)
           \/ u = ToString (body_field req "to"))
          /\ exists n, patch = kvrcoin_body n
      | POST_api_change_pin =>
          u = ToString (session_user req w)
          /\ patch = pin_body (ToString (body_field req "new_pin"))
      | _ => False
      end
  | _ => True
  end.

(** From [w] to [w'] only backend calls satisfying [P] were made. *)
Definition calls_only (P : BackendRequest -> Prop) (w w' : World) : Prop :=
  exists l, calls w' = (calls w ++ l)%list /\ Forall P l.

(** * Properties *)

(** Case analysis on the next awaited backend call in [H]. *)
Ltac await_call H :=
  match type of H with
  | context [async_bind (backendFetch ?rq) _ ?w] =>
      let e := fresh "e" in
      let v := fresh "v" in
      let w1 := fresh "w" in
      let Hc := fresh "Hcall" in
      unfold async_bind at 1 in H;
      destruct (backendFetch rq w) as [[e|v] w1] eqn:Hc
  end.


(** ** The model at work *)

Example string_to_number_examples :
  List.map Reference.string_to_number
    [""; " 42 "; "-1.5e1"; "0x1F"; "Infinity"; "abc"; "1e999"; ".5"; "12px";
     "0.1"; "9007199254740993"]
  = [Fin 0; Fin 42; Fin (-15); Fin 31; PInf; NaN; PInf; Fin (1 # 2); NaN;
     Fin (3602879701896397 # 36028797018963968); Fin 9007199254740992].
Proof. by vm_compute. Qed.

Example to_string_examples :
  List.map (@ToString Reference.runtime)
    [JNum (Fin 1234); JStr "1234"; JNum (Fin (-5 # 2)); JNull; JBool true;
     JArr [JNum (Fin 1); JNull; JStr "a"]; JObj [];
     JNum (Fin 12345678901234567890); JNum (Fin (1 # 10000000))]
  = ["1234"; "1234"; "-2.5"; "null"; "true"; "1,,a"; "[object Object]";
     "12345678901234567000"; "1e-7"].
Proof. by vm_compute. Qed.

(** 0.1 + 0.2 is 0.30000000000000004, and 2^53 + 1 is 2^53. *)
Example js_add_examples :
  js_add (Reference.string_to_number "0.1") (Reference.string_to_number "0.2")
    = Reference.string_to_number "0.30000000000000004"
  /\ js_add (Reference.string_to_number "0.1") (Reference.string_to_number "0.2")
     <> Reference.string_to_number "0.3"
  /\ js_add (Fin 9007199254740992) (Fin 1) = Fin 9007199254740992
  /\ js_sub (Fin 100) (Fin 30) = Fin 70
  /\ js_add (Fin (2 ^ 1023)) (Fin (2 ^ 1023)) = PInf.
Proof. by vm_compute. Qed.

(** Bob logs in with his PIN given as a number; his session is created. *)
Example login_example :
  let out := @login Reference.runtime
               (post "sid-bob" [("username", JStr "bob"); ("pin", JNum (Fin 2222))])
               bank in
  fst out = res_json (JObj [("message", JStr "ok"); ("user", user_to_dict bob)])
  /\ sessions (snd out) !! "sid-bob" = Some (JStr "bob")
  /\ calls (snd out) = [GET_users_pin "2222"].
Proof. by vm_compute. Qed.

(** Without a session [/api/me] answers 401 and does not call the backend. *)
Example me_example :
  @me Reference.runtime (post "sid-nobody" []) bank
  = (res_status_json 401 (error_obj "not authenticated"), bank).
Proof. by vm_compute. Qed.

(** The leaderboard scenario of the specification: alice 50, bob 80,
    carol 80 are ranked bob, carol, alice. *)
Example leaderboard_example :
  fst (chess_leaderboard (post "sid-alice" []) bank)
  = res_json (JArr [leaderboard_entry bob; leaderboard_entry carol;
                    leaderboard_entry alice]).
Proof. by vm_compute. Qed.

(** ** Numbers *)

Lemma Qltb_lt (x y : Q) : Qltb x y = true <-> (x < y)%Q.
Proof.
  unfold Qltb. rewrite negb_true_iff, <- not_true_iff_false, Qle_bool_iff.
  split; [apply Qnot_le_lt | apply Qlt_not_le].
Qed.

Lemma Qltb_ge (x y : Q) : Qltb x y = false <-> (y <= x)%Q.
Proof.
  unfold Qltb. rewrite negb_false_iff. apply Qle_bool_iff.
Qed.

Lemma round_half_even_nonneg num den :
  0 <= num -> 0 < den -> 0 <= round_half_even num den.
Proof.
  intros Hn Hd. unfold round_half_even.
  assert (0 <= num / den) by (apply Z.div_pos; lia).
  destruct (2 * (num mod den) ?= den); [destruct (Z.even _)| |]; lia.
Qed.

Lemma round_half_even_exact z : round_half_even z 1 = z.
Proof.
  unfold round_half_even. rewrite Z.mod_1_r, Z.div_1_r. reflexivity.
Qed.

Lemma round_positive_nonneg n d :
  0 < n -> 0 < d ->
  round_positive n d = PInf
  \/ exists q, round_positive n d = Fin q /\ (0 <= q)%Q.
Proof.
  intros Hn Hd. unfold round_positive.
  destruct (0 <=? ulp_exponent n d) eqn:He.
  - destruct (2 ^ 1024 <=? _); [by left|]. right. eexists. split; [reflexivity|].
    change 0%Q with (inject_Z 0). rewrite <- Zle_Qle.
    apply Z.mul_nonneg_nonneg; [|apply Z.pow_nonneg; lia].
    apply round_half_even_nonneg; [lia|].
    apply Z.mul_pos_pos; [lia|]. apply Z.pow_pos_nonneg; lia.
  - right. eexists. split; [reflexivity|]. rewrite Qred_correct.
    unfold Qle. cbn [Qnum Qden]. rewrite Z.mul_0_l, Z.mul_1_r.
    apply round_half_even_nonneg; [|lia].
    apply Z.mul_nonneg_nonneg; [lia|]. apply Z.pow_nonneg; lia.
Qed.

(** Rounding keeps the sign: a number that is not negative is rounded to
    one that is not negative, or to +Infinity. *)
Lemma round64_nonneg (q : Q) :
  (0 <= q)%Q ->
  round64 q = PInf \/ exists q', round64 q = Fin q' /\ (0 <= q')%Q.
Proof.
  intros Hq. unfold round64.
  destruct (Qnum (Qred q)) as [|n|n] eqn:Hn.
  - right. by exists 0%Q.
  - apply round_positive_nonneg; lia.
  - exfalso. rewrite <- (Qred_correct q) in Hq.
    unfold Qle in Hq. simpl in Hq. rewrite Hn in Hq. lia.
Qed.

Lemma Qred_inject_Z z : Qred (inject_Z z) = inject_Z z.
Proof.
  unfold inject_Z, Qred.
  pose proof (Z.ggcd_gcd z 1) as Hg. pose proof (Z.ggcd_correct_divisors z 1) as Hd.
  destruct (Z.ggcd z 1) as [g [a b]]. simpl in *.
  rewrite Z.gcd_1_r in Hg. subst g. destruct Hd as [Ha Hb].
  rewrite Z.mul_1_l in Ha, Hb. by subst.
Qed.

Lemma round_positive_integer z :
  0 < z < 2 ^ 53 -> round_positive z 1 = Fin (inject_Z z).
Proof.
  intros Hz. unfold round_positive, ulp_exponent.
  assert (Hlog : 0 <= Z.log2 z < 53).
  { split; [apply Z.log2_nonneg|]. apply Z.log2_lt_pow2; lia. }
  change (Z.log2 1) with 0. rewrite Z.sub_0_r.
  set (fl := if below_pow2 z 1 (Z.log2 z) then Z.log2 z - 1 else Z.log2 z).
  assert (Hfl : fl <= 52) by (unfold fl; destruct (below_pow2 _ _ _); lia).
  destruct (0 <=? Z.max (-1074) (fl - 52)) eqn:He.
  - assert (He0 : Z.max (-1074) (fl - 52) = 0) by lia. rewrite He0.
    change (2 ^ 0) with 1. rewrite !Z.mul_1_r, round_half_even_exact.
    assert (Hsmall : (2 ^ 1024 <=? z) = false).
    { apply Z.leb_gt. eapply Z.lt_trans; [apply Hz|]. by vm_compute. }
    by rewrite Hsmall.
  - set (k := - Z.max (-1074) (fl - 52)).
    assert (Hk : 0 < 2 ^ k) by (apply Z.pow_pos_nonneg; lia).
    rewrite round_half_even_exact. f_equal.
    rewrite <- (Qred_inject_Z z). apply Qred_complete.
    unfold Qeq, inject_Z. simpl. rewrite Z2Pos.id by lia. lia.
Qed.

(** An integer below 2^53 in magnitude is a binary64 number: rounding
    leaves it as it is. *)
Lemma round64_integer (q : Q) (z : Z) :
  (q == inject_Z z)%Q -> Z.abs z < 2 ^ 53 -> round64 q = Fin (inject_Z z).
Proof.
  intros Hq Hz. unfold round64.
  rewrite (Qred_complete _ _ Hq), Qred_inject_Z. simpl.
  destruct z as [|n|n]; [reflexivity| |].
  - apply round_positive_integer. lia.
  - rewrite round_positive_integer by lia. simpl. f_equal.
    change (- inject_Z (Z.pos n))%Q with (inject_Z (Z.neg n)).
    apply Qred_inject_Z.
Qed.

Lemma round64_nonpos (q : Q) :
  (q <= 0)%Q ->
  round64 q = NInf \/ exists q', round64 q = Fin q' /\ (q' <= 0)%Q.
Proof.
  intros Hq. unfold round64.
  destruct (Qnum (Qred q)) as [|n|n] eqn:Hn.
  - right. by exists 0%Q.
  - exfalso. rewrite <- (Qred_correct q) in Hq.
    unfold Qle in Hq. simpl in Hq. rewrite Hn in Hq. lia.
  - destruct (round_positive_nonneg (Z.pos n) (Z.pos (Qden (Qred q))))
      as [-> | (q' & -> & Hq')]; [lia | lia | by left |].
    right. eexists. split; [reflexivity|]. rewrite Qred_correct.
    by apply Qopp_le_compat in Hq'.
Qed.

Lemma round64_0 : round64 0 = Fin 0.
Proof. reflexivity. Qed.

(** What the check [amt <= 0] of line 83 says of a finite amount. *)
Lemma js_le_0 (a : Q) : (a <= 0)%Q -> js_le (Fin a) (Fin 0) = true.
Proof.
  intros Ha. unfold js_le, binary64. rewrite round64_0.
  destruct (round64_nonpos a Ha) as [-> | (a' & -> & Ha')]; [reflexivity|].
  by apply Qle_bool_iff.
Qed.

(** A debit that passed the funds check of line 88 is not negative. *)
Lemma js_sub_nonneg (s a d : Q) :
  js_lt (Fin s) (Fin a) = false ->
  js_sub (Fin s) (Fin a) = Fin d -> (0 <= d)%Q.
Proof.
  unfold js_lt, js_sub, binary64.
  destruct (round64 s) as [| | |s'], (round64 a) as [| | |a'];
    try discriminate.
  intros Hlt Hd. apply Qltb_ge in Hlt.
  destruct (round64_nonneg (s' - a')) as [Hinf | (q & Hq & Hpos)].
  - by apply -> Qle_minus_iff.
  - congruence.
  - congruence.
Qed.

Lemma js_add_nonneg (r a c : Q) :
  (0 <= r)%Q -> (0 <= a)%Q -> js_add (Fin r) (Fin a) = Fin c -> (0 <= c)%Q.
Proof.
  intros Hr Ha. unfold js_add, binary64.
  destruct (round64_nonneg r Hr) as [-> | (r' & -> & Hr')];
    destruct (round64_nonneg a Ha) as [-> | (a' & -> & Ha')];
    try discriminate.
  intros Hc.
  destruct (round64_nonneg (r' + a')) as [Hinf | (q & Hq & Hpos)].
  - replace 0%Q with (0 + 0)%Q by reflexivity. by apply Qplus_le_compat.
  - congruence.
  - congruence.
Qed.

(** On integers below 2^53 in magnitude the comparison is that of the
    integers, and the difference and the sum are exact when they are below
    2^53 in magnitude too. *)
Lemma js_lt_integers (x y : Q) (zx zy : Z) :
  (x == inject_Z zx)%Q -> (y == inject_Z zy)%Q ->
  Z.abs zx < 2 ^ 53 -> Z.abs zy < 2 ^ 53 ->
  js_lt (Fin x) (Fin y) = (zx <? zy).
Proof.
  intros Hx Hy Hzx Hzy. unfold js_lt, binary64.
  rewrite (round64_integer x zx Hx Hzx), (round64_integer y zy Hy Hzy).
  destruct (zx <? zy) eqn:Hlt.
  - apply Qltb_lt. rewrite <- Zlt_Qlt. lia.
  - apply Qltb_ge. rewrite <- Zle_Qle. lia.
Qed.

Lemma js_sub_integers (x y : Q) (zx zy : Z) :
  (x == inject_Z zx)%Q -> (y == inject_Z zy)%Q ->
  Z.abs zx < 2 ^ 53 -> Z.abs zy < 2 ^ 53 -> Z.abs (zx - zy) < 2 ^ 53 ->
  js_sub (Fin x) (Fin y) = Fin (inject_Z (zx - zy)).
Proof.
  intros Hx Hy Hzx Hzy Hz. unfold js_sub, binary64.
  rewrite (round64_integer x zx Hx Hzx), (round64_integer y zy Hy Hzy).
  apply round64_integer; [|exact Hz].
  unfold Qeq, inject_Z. simpl. lia.
Qed.

Lemma js_add_integers (x y : Q) (zx zy : Z) :
  (x == inject_Z zx)%Q -> (y == inject_Z zy)%Q ->
  Z.abs zx < 2 ^ 53 -> Z.abs zy < 2 ^ 53 -> Z.abs (zx + zy) < 2 ^ 53 ->
  js_add (Fin x) (Fin y) = Fin (inject_Z (zx + zy)).
Proof.
  intros Hx Hy Hzx Hzy Hz. unfold js_add, binary64.
  rewrite (round64_integer x zx Hx Hzx), (round64_integer y zy Hy Hzy).
  apply round64_integer; [|exact Hz].
  unfold Qeq, inject_Z. simpl. lia.
Qed.

(** An amount that passes the check of line 83 is a positive finite number
    or +Infinity. *)
Lemma valid_amount (amt : JsNumber) :
  js_isNaN amt || js_le amt (Fin 0) = false ->
  amt = PInf \/ exists a, amt = Fin a /\ (0 < a)%Q.
Proof.
  destruct amt as [| | |a]; try (simpl; discriminate); auto.
  intros Hle. right. exists a. split; [reflexivity|].
  apply Qnot_le_lt. intros Hc. by rewrite (js_le_0 a Hc) in Hle.
Qed.

(** ** The backend table *)

Lemma find_user_name (u : string) (t : list UserRow) (r : UserRow) :
  find_user u t = Some r -> row_username r = u.
Proof.
  unfold find_user. intros Hf. apply List.find_some in Hf as [_ He].
  by apply String.eqb_eq.
Qed.

Lemma find_user_In (u : string) (t : list UserRow) (r : UserRow) :
  find_user u t = Some r -> In r t.
Proof. unfold find_user. intros Hf. by apply List.find_some in Hf as [? _]. Qed.

Lemma patch_field_username f r r' :
  patch_field f r = Some r' -> row_username r' = row_username r.
Proof.
  destruct f as [k v]. unfold patch_field.
  repeat case_match; intros; simplify_eq; reflexivity.
Qed.

Lemma patch_fields_username fs r r' :
  patch_fields fs r = Some r' -> row_username r' = row_username r.
Proof.
  revert r. induction fs as [|f fs IH]; simpl; intros r Hp.
  - by simplify_eq.
  - destruct (patch_field f r) as [r1|] eqn:Hf; [|discriminate].
    rewrite (IH _ Hp). by apply patch_field_username in Hf.
Qed.

Lemma patch_row_username body r r' :
  patch_row body r = Some r' -> row_username r' = row_username r.
Proof. destruct body; simpl; try discriminate. apply patch_fields_username. Qed.

Lemma patched_username body r :
  row_username (default r (patch_row body r)) = row_username r.
Proof.
  destruct (patch_row body r) as [r'|] eqn:Hp; simpl; [|reflexivity].
  by apply patch_row_username in Hp.
Qed.

Lemma find_user_update_same u body t r r' :
  find_user u t = Some r -> patch_row body r = Some r' ->
  find_user u (update_rows u body t) = Some r'.
Proof.
  unfold find_user, update_rows.
  induction t as [|x t IH]; simpl; [discriminate|].
  destruct (String.eqb (row_username x) u) eqn:Hx.
  - intros [= ->] Hp. rewrite Hp. simpl.
    rewrite (patch_row_username _ _ _ Hp), Hx. reflexivity.
  - rewrite Hx. auto.
Qed.

Lemma find_user_update_other u v body t :
  v <> u -> find_user v (update_rows u body t) = find_user v t.
Proof.
  intros Hne. unfold find_user, update_rows.
  induction t as [|x t IH]; simpl; [reflexivity|].
  destruct (String.eqb (row_username x) u) eqn:Hx.
  - rewrite patched_username.
    apply String.eqb_eq in Hx. rewrite Hx.
    destruct (String.eqb u v) eqn:Huv.
    + apply String.eqb_eq in Huv. congruence.
    + exact IH.
  - destruct (String.eqb (row_username x) v); [reflexivity | exact IH].
Qed.

Lemma patch_row_kvrcoin q r :
  patch_row (kvrcoin_body (Fin q)) r = Some (set_kvrcoin q r).
Proof. reflexivity. Qed.

Lemma patch_row_kvrcoin_null n r :
  js_isFinite n = false -> patch_row (kvrcoin_body n) r = None.
Proof. destruct n; simpl; try discriminate; reflexivity. Qed.

Lemma patch_row_pin p r : patch_row (pin_body p) r = Some (set_pin p r).
Proof. reflexivity. Qed.

(** ** One backend call *)


Lemma sessions_called rq t w : sessions (called rq t w) = sessions w.
Proof. reflexivity. Qed.

Lemma calls_called rq t w : calls (called rq t w) = (calls w ++ [rq])%list.
Proof. reflexivity. Qed.

Lemma outages_called rq t w : outages (called rq t w) = List.tl (outages w).
Proof. reflexivity. Qed.

(** A response the backend marks as failed leaves the table alone, and
    every successful response has status 200. *)
Lemma backend_cases rq t :
  (exists v, fst (backend rq t) = res_json v)
  \/ (snd (backend rq t) = t
      /\ (fst (backend rq t) = user_not_found
          \/ fst (backend rq t) = invalid_update
          \/ fst (backend rq t) = pin_already_in_use)).
Proof.
  destruct rq as [u|p|u body|]; simpl; repeat case_match; simpl; eauto 6.
Qed.

(** The backend changes nothing when it is asked to read. *)
Lemma backend_read rq t : is_read rq = true -> snd (backend rq t) = t.
Proof. destruct rq; try discriminate; intros _; simpl; by repeat case_match. Qed.

(** The response the catch block builds from the exception of a backend
    call is not a 200.  The call has not changed the table, unless the
    backend processed it and the response was lost. *)
Lemma backendFetch_throws rq w e w' :
  backendFetch rq w = (inl e, w') ->
  status (on_error e) <> 200
  /\ (w' = called rq (users w) w
      \/ exists m, List.hd None (outages w) = Some (ResponseLost m)
                   /\ w' = called rq (snd (backend rq (users w))) w).
Proof.
  unfold backendFetch, fetch.
  destruct (List.hd None (outages w)) as [[m| |m]|]; simpl.
  - intros [= <- <-]. split; [discriminate | by left].
  - intros [= <- <-]. split; [discriminate | by left].
  - destruct (backend rq (users w)) as [r t]; simpl.
    intros [= <- <-]. split; [discriminate | right; by exists m].
  - destruct (backend_cases rq (users w)) as [[v Hv]|[Ht Hr]];
      destruct (backend rq (users w)) as [r t]; simpl in *; subst.
    + discriminate.
    + destruct Hr as [-> | [-> | ->]]; simpl; intros [= <- <-];
        (split; [discriminate | by left]).
Qed.

(** A read that throws has not changed the table. *)
Lemma backendFetch_read_throws rq w e w' :
  is_read rq = true ->
  backendFetch rq w = (inl e, w') ->
  w' = called rq (users w) w /\ status (on_error e) <> 200.
Proof.
  intros Hread Hcall.
  apply backendFetch_throws in Hcall as [Hst [-> | (m & _ & ->)]].
  - by split.
  - by rewrite backend_read.
Qed.

(** Whatever its outcome, a backend call is one more call in the trace. *)
Lemma backendFetch_called {rq w x w'} :
  backendFetch rq w = (x, w') -> exists t, w' = called rq t w.
Proof.
  unfold backendFetch, fetch.
  destruct (List.hd None (outages w)) as [[m| |m]|]; simpl;
    destruct (backend rq (users w)) as [r t]; simpl;
    try destruct (negb (res_ok r)); intros [= <- <-]; eauto.
Qed.

(** A backend call that returns was not hit by an outage and carries the
    body of the backend's response. *)
Lemma backendFetch_returns rq w v w' :
  backendFetch rq w = (inr v, w') ->
  List.hd None (outages w) = None
  /\ fst (backend rq (users w)) = res_json v
  /\ w' = called rq (snd (backend rq (users w))) w.
Proof.
  unfold backendFetch, fetch.
  destruct (List.hd None (outages w)) as [[m| |m]|]; simpl; try discriminate.
  { by destruct (backend rq (users w)). }
  destruct (backend_cases rq (users w)) as [[v' Hv]|[Ht Hr]];
    destruct (backend rq (users w)) as [r t]; simpl in *; subst.
  - intros [= <- <-]. auto.
  - destruct Hr as [-> | [-> | ->]]; discriminate.
Qed.

(** When the backend is reachable the call is the backend's answer. *)
Lemma backendFetch_up rq w :
  List.hd None (outages w) = None ->
  backendFetch rq w =
    (if negb (res_ok (fst (backend rq (users w))))
     then inl (BackendError (status (fst (backend rq (users w))))
                            (json (fst (backend rq (users w)))))
     else inr (json (fst (backend rq (users w)))),
     called rq (snd (backend rq (users w))) w).
Proof.
  intros Hup. unfold backendFetch, fetch. rewrite Hup.
  destruct (backend rq (users w)) as [r t]; simpl.
  by destruct (negb (res_ok r)).
Qed.

Lemma GET_users_returns u w v w' :
  backendFetch (GET_users u) w = (inr v, w') ->
  exists r, find_user u (users w) = Some r /\ v = user_to_dict r
            /\ w' = called (GET_users u) (users w) w.
Proof.
  intros Hb. apply backendFetch_returns in Hb as (_ & Hr & ->).
  simpl in *. destruct (find_user u (users w)) as [r|]; simpl in *.
  - exists r. by simplify_eq.
  - discriminate.
Qed.

Lemma GET_users_pin_returns p w v w' :
  backendFetch (GET_users_pin p) w = (inr v, w') ->
  exists r, find_pin p (users w) = Some r /\ v = user_to_dict r
            /\ w' = called (GET_users_pin p) (users w) w.
Proof.
  intros Hb. apply backendFetch_returns in Hb as (_ & Hr & ->).
  simpl in *. destruct (find_pin p (users w)) as [r|]; simpl in *.
  - exists r. by simplify_eq.
  - discriminate.
Qed.

(** What the backend does with a PATCH of an existing account that it can
    apply. *)
Lemma backend_PATCH_users u body t r r' :
  find_user u t = Some r -> patch_row body r = Some r' ->
  backend (PATCH_users u body) t
  = if sets_pin body && pin_in_use u (row_pin r') t
    then (pin_already_in_use, t)
    else (res_json (user_to_dict r'), update_rows u body t).
Proof. intros Hr Hp. simpl. by rewrite Hr, Hp. Qed.

Lemma PATCH_users_returns u body w v w' :
  backendFetch (PATCH_users u body) w = (inr v, w') ->
  exists r r', find_user u (users w) = Some r /\ patch_row body r = Some r'
               /\ sets_pin body && pin_in_use u (row_pin r') (users w) = false
               /\ v = user_to_dict r'
               /\ w' = called (PATCH_users u body) (update_rows u body (users w)) w.
Proof.
  intros Hb. apply backendFetch_returns in Hb as (_ & Hr & ->).
  destruct (find_user u (users w)) as [r|] eqn:Hfind;
    [|simpl in Hr; rewrite Hfind in Hr; discriminate].
  destruct (patch_row body r) as [r'|] eqn:Hp;
    [|simpl in Hr; rewrite Hfind, Hp in Hr; discriminate].
  rewrite (backend_PATCH_users u body _ r r' Hfind Hp) in *.
  destruct (sets_pin body && pin_in_use u (row_pin r') (users w)) eqn:Hpin;
    [discriminate|].
  exists r, r'. simpl in Hr. by simplify_eq.
Qed.

(** A PATCH that throws has left the table alone or, when its response
    was lost, has made of it what the backend did. *)
Lemma PATCH_users_throws u body w e w' :
  backendFetch (PATCH_users u body) w = (inl e, w') ->
  status (on_error e) <> 200
  /\ (w' = called (PATCH_users u body) (users w) w
      \/ exists m r r',
           List.hd None (outages w) = Some (ResponseLost m)
           /\ find_user u (users w) = Some r /\ patch_row body r = Some r'
           /\ sets_pin body && pin_in_use u (row_pin r') (users w) = false
           /\ w' = called (PATCH_users u body) (update_rows u body (users w)) w).
Proof.
  intros Hb. apply backendFetch_throws in Hb as [Hst [-> | (m & Hm & ->)]];
    (split; [exact Hst|]); [by left|].
  destruct (find_user u (users w)) as [r|] eqn:Hfind;
    [|left; simpl; by rewrite Hfind].
  destruct (patch_row body r) as [r'|] eqn:Hp;
    [|left; simpl; by rewrite Hfind, Hp].
  rewrite (backend_PATCH_users u body _ r r' Hfind Hp).
  destruct (sets_pin body && pin_in_use u (row_pin r') (users w)) eqn:Hpin;
    [by left|].
  right. by exists m, r, r'.
Qed.

(** The faults of a schedule seen from the world after a call. *)
Lemma fault_at_called n rq t w : fault_at n (called rq t w) = fault_at (S n) w.
Proof.
  unfold fault_at. simpl. destruct (outages w); simpl; [by destruct n | done].
Qed.

Lemma fault_at_0 w : fault_at 0 w = List.hd None (outages w).
Proof. unfold fault_at. by destruct (outages w). Qed.

Lemma get_property_user_to_dict r k w x w' :
  get_property (user_to_dict r) k w = (x, w') ->
  x = inr (own_property
             [("username", JStr (row_username r));
              ("kvrcoin", JNum (Fin (row_kvrcoin r)));
              ("chess_points", JNum (Fin (inject_Z (row_chess_points r))))] k)
  /\ w' = w.
Proof. unfold user_to_dict, get_property, async_ret. intros Hg. by simplify_eq. Qed.

(** ** The runs of a transfer *)

Local Arguments js_lt : simpl never.
Local Arguments js_sub : simpl never.
Local Arguments js_add : simpl never.

(** Only finite operands have a finite difference or sum. *)
Lemma js_sub_finite (x amt : JsNumber) (d : Q) :
  js_sub x amt = Fin d -> exists a, amt = Fin a.
Proof.
  destruct amt as [| | |a]; [| | |by eauto]; unfold js_sub; simpl;
    destruct (binary64 x); discriminate.
Qed.

Lemma js_add_finite (x amt : JsNumber) (c : Q) :
  js_add x amt = Fin c -> exists a, amt = Fin a.
Proof.
  destruct amt as [| | |a]; [| | |by eauto]; unfold js_add; simpl;
    destruct (binary64 x); discriminate.
Qed.

Lemma patch_row_kvrcoin_finite n r r' :
  patch_row (kvrcoin_body n) r = Some r' -> exists q, n = Fin q.
Proof. destruct n; simpl; try discriminate. eauto. Qed.

(** Every run of the transfer handler ends in one of these ways: rejected
    before any backend call; failed while reading the two accounts, or
    refused for lack of funds after reading them; or, the funds being
    sufficient, stopped at the debit, at the credit or at the final read,
    with the table holding the updates that the backend applied until
    then. *)
Lemma transfer_cases `{JsRuntime} (req : Request) (w w' : World) (res : Response) :
  transfer req w = (res, w') ->
  let from := ToString (session_user req w) in
  let to := ToString (body_field req "to") in
  let amt := ToNumber (body_field req "amount") in
  sessions w' = sessions w /\
  ((w' = w /\ (status res = 401 \/ status res = 400))
   \/ (js_isNaN amt || js_le amt (Fin 0) = false
       /\ users w' = users w /\ status res <> 200
       /\ (calls w' = (calls w ++ [GET_users from])%list
           \/ calls w' = (calls w ++ [GET_users from; GET_users to])%list))
   \/ (exists s r,
         find_user from (users w) <> None
         /\ balance from (users w) = Some s
         /\ balance to (users w) = Some r
         /\ js_isNaN amt || js_le amt (Fin 0) = false
         /\ js_lt (Fin s) amt = false
         /\ ((users w' = users w /\ status res <> 200
              /\ calls w' =
                   (calls w ++ firstn 3 (transfer_calls from to s r amt))%list)
             \/ exists d,
                  js_sub (Fin s) amt = Fin d
                  /\ ((users w' = with_balance from d (users w)
                       /\ status res <> 200
                       /\ ((calls w' =
                              (calls w
                               ++ firstn 3 (transfer_calls from to s r amt))%list
                            /\ exists m, fault_at 2 w = Some (ResponseLost m))
                           \/ calls w' =
                                (calls w
                                 ++ firstn 4 (transfer_calls from to s r amt))%list))
                      \/ exists c,
                           js_add (Fin r) amt = Fin c
                           /\ users w' =
                                with_balance to c (with_balance from d (users w))
                           /\ ((status res <> 200
                                /\ calls w' =
                                     (calls w
                                      ++ firstn 4 (transfer_calls from to s r amt))%list
                                /\ exists m, fault_at 3 w = Some (ResponseLost m))
                               \/ (calls w' =
                                     (calls w ++ transfer_calls from to s r amt)%list
                                   /\ (status res = 200 ->
                                       exists row,
                                         find_user from (users w') = Some row
                                         /\ res = res_json
                                              (JObj [("message", JStr "ok");
                                                     ("user", user_to_dict row)])))))))).
Proof.
  intros Ht from to amt. unfold transfer in Ht.
  fold from to amt in Ht.
  destruct (negb (truthy (session_user req w))) eqn:Hfrom.
  { simplify_eq. simpl. auto. }
  destruct (negb (truthy (body_field req "to"))
            || is_undefined (body_field req "amount")) eqn:Hto.
  { simplify_eq. simpl. auto. }
  destruct (js_isNaN amt || js_le amt (Fin 0)) eqn:Hamt.
  { simplify_eq. simpl. auto. }
  unfold try_catch, encodeURIComponent in Ht. fold from to in Ht.
  (* the sender is read *)
  await_call Ht.
  { apply backendFetch_read_throws in Hcall as [-> Hst]; [|reflexivity].
    simplify_eq. split; [reflexivity|]. right; left.
    split; [done|]. split; [done|]. split; [done|]. by left. }
  apply GET_users_returns in Hcall as (rs & Hrs & -> & ->).
  (* the receiver is read *)
  await_call Ht.
  { apply backendFetch_read_throws in Hcall as [-> Hst]; [|reflexivity].
    simplify_eq. split; [reflexivity|]. right; left.
    split; [done|]. split; [done|]. split; [done|].
    right. simpl. by rewrite <- app_assoc. }
  apply GET_users_returns in Hcall as (rr & Hrr & -> & ->).
  simpl in Hrr.
  unfold async_bind at 1 in Ht. simpl in Ht.
  (* the funds check *)
  set (s := row_kvrcoin rs) in *. set (r := row_kvrcoin rr) in *.
  change (ToNumber (own_property _ "kvrcoin")) with (Fin s) in Ht.
  fold amt in Ht.
  destruct (js_lt (Fin s) amt) eqn:Hlt.
  { simpl in Ht. simplify_eq. simpl.
    split; [reflexivity|]. right; left.
    split; [done|]. split; [done|]. split; [done|].
    right. by rewrite <- app_assoc. }
  (* from here on the two accounts are known and the funds suffice *)
  assert (Hknown :
    find_user from (users w) <> None
    /\ balance from (users w) = Some s /\ balance to (users w) = Some r).
  { unfold balance. rewrite Hrs, Hrr. by repeat split. }
  destruct Hknown as (K1 & K2 & K3).
  (* the debit *)
  await_call Ht.
  { apply PATCH_users_throws in Hcall
      as [Hst [-> | (m & r0 & r1 & Hm & _ & Hp & _ & ->)]]; simplify_eq.
    - split; [reflexivity|]. right; right. exists s, r.
      do 5 (split; [done|]). left. simpl.
      rewrite <- !app_assoc. by repeat split.
    - apply patch_row_kvrcoin_finite in Hp as [d Hd].
      split; [reflexivity|]. right; right. exists s, r.
      do 5 (split; [done|]). right. exists d. split; [exact Hd|].
      left. simpl. rewrite Hd, <- !app_assoc.
      split; [reflexivity|]. split; [exact Hst|]. left.
      split; [reflexivity|]. exists m.
      by rewrite <- Hm, <- fault_at_0, !fault_at_called. }
  apply PATCH_users_returns in Hcall as (r0 & r1 & _ & Hp & _ & -> & ->).
  apply patch_row_kvrcoin_finite in Hp as [d Hd].
  simpl in Ht. unfold async_bind at 1 in Ht. simpl in Ht.
  change (ToNumber (own_property _ "kvrcoin")) with (Fin r) in Ht.
  (* the credit *)
  await_call Ht.
  { apply PATCH_users_throws in Hcall
      as [Hst [-> | (m & r2 & r3 & Hm & _ & Hp & _ & ->)]]; simplify_eq.
    - split; [reflexivity|]. right; right. exists s, r.
      do 5 (split; [done|]). right. exists d. split; [exact Hd|].
      left. simpl. rewrite Hd, <- !app_assoc.
      split; [reflexivity|]. split; [exact Hst|]. by right.
    - apply patch_row_kvrcoin_finite in Hp as [c Hc].
      split; [reflexivity|]. right; right. exists s, r.
      do 5 (split; [done|]). right. exists d. split; [exact Hd|].
      right. exists c. split; [exact Hc|]. simpl. rewrite Hd, Hc, <- !app_assoc.
      split; [reflexivity|]. left.
      split; [exact Hst|]. split; [reflexivity|]. exists m.
      by rewrite <- Hm, <- fault_at_0, !fault_at_called. }
  apply PATCH_users_returns in Hcall as (r2 & r3 & _ & Hp & _ & -> & ->).
  apply patch_row_kvrcoin_finite in Hp as [c Hc].
  (* the sender is read again *)
  assert (Hfinal :
    sessions w' = sessions w /\
    users w' = with_balance to c (with_balance from d (users w)) /\
    calls w' = (calls w ++ transfer_calls from to s r amt)%list /\
    (status res = 200 ->
     exists row, find_user from (users w') = Some row
       /\ res = res_json (JObj [("message", JStr "ok");
                                ("user", user_to_dict row)]))).
  { await_call Ht.
    - apply backendFetch_read_throws in Hcall as [-> Hst]; [|reflexivity].
      simplify_eq. unfold transfer_calls. simpl.
      rewrite Hd, Hc, <- !app_assoc. by repeat split.
    - apply GET_users_returns in Hcall as (ru & Hru & -> & ->).
      simpl in Ht. unfold async_ret in Ht. simplify_eq.
      unfold transfer_calls. simpl.
      rewrite Hd, Hc, <- !app_assoc. repeat split; try done.
      intros _. exists ru. split; [|reflexivity].
      simpl in Hru. by rewrite Hd, Hc in Hru. }
  destruct Hfinal as (Hs & Hu & Hcalls & Hok).
  split; [exact Hs|]. right; right. exists s, r.
  do 5 (split; [done|]). right. exists d. split; [exact Hd|].
  right. exists c. split; [exact Hc|]. split; [exact Hu|]. right. by split.
Qed.

Lemma balance_update_same u q t s :
  balance u t = Some s ->
  balance u (with_balance u q t) = Some q.
Proof.
  unfold balance, with_balance.
  destruct (find_user u t) as [r|] eqn:Hr; [|discriminate].
  intros _. by rewrite (find_user_update_same u _ t r (set_kvrcoin q r)).
Qed.

Lemma balance_update_other u v body t :
  v <> u -> balance v (update_rows u body t) = balance v t.
Proof. intros Hne. unfold balance. by rewrite find_user_update_other. Qed.

Lemma calls_made_app w w' l :
  calls w' = (calls w ++ l)%list -> calls_made w w' = length l.
Proof. unfold calls_made. intros ->. rewrite length_app. lia. Qed.

(** C4 as the specification states it fails: Alice (100) sends 1 to the
    vault, whose balance is 2^53.  The transfer is answered 200 and Alice
    ends at 99, but 2^53 + 1 is not a binary64 number and the sum is rounded
    to 2^53: the vault's balance has not increased, and the two balances
    together have lost the coin. *)
Lemma transfer_credit_is_rounded :
  let out := @transfer Reference.runtime
               (post "sid-alice" [("to", JStr "vault"); ("amount", JNum (Fin 1))])
               bank_with_vault in
  balance "alice" (users bank_with_vault) = Some 100%Q
  /\ balance "vault" (users bank_with_vault) = Some 9007199254740992%Q
  /\ status (fst out) = 200
  /\ balance "alice" (users (snd out)) = Some 99%Q
  /\ balance "vault" (users (snd out)) = Some 9007199254740992%Q
  /\ ~ (9007199254740992 == 9007199254740992 + 1)%Q
  /\ ~ (99 + 9007199254740992 == 100 + 9007199254740992)%Q.
Proof. vm_compute. repeat split; discriminate. Qed.

(** C4, amended: a successful transfer between two distinct existing
    accounts sets the sender's balance to the binary64 difference of the
    balance and the amount, and the receiver's balance to the binary64 sum
    of the balance and the amount, each the exact result rounded to the
    nearest binary64 number.  When the two balances and the amount are
    integers below 2^53 in magnitude, as is the receiver's new balance, the
    sender's balance decreases by exactly the amount, the receiver's
    increases by exactly the amount and their sum is unchanged; Alice (100)
    sending 30 to Bob (10) ends with 70 and 40. *)
Theorem transfer_moves_the_amount `{JsRuntime} :
  (forall (req : Request) (w w' : World) (res : Response),
     transfer req w = (res, w') ->
     status res = 200 ->
     ToString (session_user req w) <> ToString (body_field req "to") ->
     exists s r a s' r',
       balance (ToString (session_user req w)) (users w) = Some s
       /\ balance (ToString (body_field req "to")) (users w) = Some r
       /\ ToNumber (body_field req "amount") = Fin a
       /\ balance (ToString (session_user req w)) (users w') = Some s'
       /\ balance (ToString (body_field req "to")) (users w') = Some r'
       /\ js_sub (Fin s) (Fin a) = Fin s'
       /\ js_add (Fin r) (Fin a) = Fin r'
       /\ (forall zs zr za : Z,
             (s == inject_Z zs)%Q -> (r == inject_Z zr)%Q ->
             (a == inject_Z za)%Q ->
             Z.abs zs < 2 ^ 53 -> Z.abs zr < 2 ^ 53 -> Z.abs za < 2 ^ 53 ->
             Z.abs (zr + za) < 2 ^ 53 ->
             (s' == s - a)%Q /\ (r' == r + a)%Q /\ (s' + r' == s + r)%Q))
  /\ (let out := transfer (post "sid-alice"
                             [("to", JStr "bob"); ("amount", JNum (Fin 30))])
                          bank in
      balance "alice" (users bank) = Some 100%Q
      /\ balance "bob" (users bank) = Some 10%Q
      /\ status (fst out) = 200
      /\ balance "alice" (users (snd out)) = Some 70%Q
      /\ balance "bob" (users (snd out)) = Some 40%Q).
Proof.
  split; [|by vm_compute].
  intros req w w' res Ht Hok Hne.
  destruct (transfer_cases req w w' res Ht) as [_ Hcases].
  destruct Hcases as [[_ [Hst|Hst]] | [(_ & _ & Hst & _) | Hrun]];
    try (rewrite Hok in Hst; discriminate); try done.
  destruct Hrun as (s & r & _ & Hs & Hr & Hvalid & Hfunds & Hrun).
  destruct Hrun as [(_ & Hst & _) | (d & Hd & Hrun)]; [done|].
  destruct Hrun as [(_ & Hst & _) | (c & Hc & Hu & Hrun)]; [done|].
  destruct Hrun as [(Hst & _) | _]; [done|].
  destruct (js_sub_finite _ _ _ Hd) as [a Ha].
  rewrite Ha in Hd, Hc, Hvalid, Hfunds.
  destruct (valid_amount _ Hvalid) as [? | (a' & [= <-] & Hpos)]; [done|].
  exists s, r, a, d, c. rewrite Hu.
  split; [exact Hs|]. split; [exact Hr|]. split; [exact Ha|].
  split.
  { unfold with_balance at 1. rewrite balance_update_other by done.
    by apply balance_update_same with s. }
  split.
  { apply balance_update_same with r.
    unfold with_balance. by rewrite balance_update_other by done. }
  split; [exact Hd|]. split; [exact Hc|].
  intros zs zr za Hzs Hzr Hza Hs_safe Hr_safe Ha_safe Hsum.
  assert (Hza_pos : 0 < za).
  { rewrite Zlt_Qlt. by rewrite <- Hza. }
  assert (Hza_le : za <= zs).
  { rewrite (js_lt_integers s a zs za Hzs Hza Hs_safe Ha_safe) in Hfunds. lia. }
  rewrite (js_sub_integers s a zs za Hzs Hza) in Hd by lia.
  rewrite (js_add_integers r a zr za Hzr Hza) in Hc by lia.
  simplify_eq. rewrite Hzs, Hzr, Hza.
  unfold Qeq, inject_Z. simpl. lia.
Qed.

(** The scenario of the specification, run through the theorem. *)
Lemma transfer_moves_the_amount_witness :
  let req := post "sid-alice" [("to", JStr "bob"); ("amount", JNum (Fin 30))] in
  let out := @transfer Reference.runtime req bank in
  exists s r a s' r',
    balance "alice" (users bank) = Some s
    /\ balance "bob" (users bank) = Some r
    /\ @ToNumber Reference.runtime (JNum (Fin 30)) = Fin a
    /\ balance "alice" (users (snd out)) = Some s'
    /\ balance "bob" (users (snd out)) = Some r'
    /\ js_sub (Fin s) (Fin a) = Fin s'
    /\ js_add (Fin r) (Fin a) = Fin r'
    /\ (forall zs zr za : Z,
          (s == inject_Z zs)%Q -> (r == inject_Z zr)%Q ->
          (a == inject_Z za)%Q ->
          Z.abs zs < 2 ^ 53 -> Z.abs zr < 2 ^ 53 -> Z.abs za < 2 ^ 53 ->
          Z.abs (zr + za) < 2 ^ 53 ->
          (s' == s - a)%Q /\ (r' == r + a)%Q /\ (s' + r' == s + r)%Q).
Proof.
  intros req out.
  apply (proj1 (@transfer_moves_the_amount Reference.runtime)
           req bank _ _ (surjective_pairing _)).
  - reflexivity.
  - discriminate.
Defined.

(** C1 as the specification states it fails: with the backend answering
    503 to the credit, Alice's transfer of 30 to Bob returns the error to
    the caller and leaves Alice debited (70) while Bob is not credited
    (10). *)
Lemma transfer_failed_credit_keeps_debit :
  let out := @transfer Reference.runtime
               (post "sid-alice" [("to", JStr "bob"); ("amount", JNum (Fin 30))])
               bank_outage_at_credit in
  balance "alice" (users bank_outage_at_credit) = Some 100%Q
  /\ balance "bob" (users bank_outage_at_credit) = Some 10%Q
  /\ fst out = res_status_json 503 (error_obj "backend")
  /\ balance "alice" (users (snd out)) = Some 70%Q
  /\ balance "bob" (users (snd out)) = Some 10%Q.
Proof. by vm_compute. Qed.

(** The same half-done state arises one call earlier when the backend
    applies the debit and its response is lost: the transfer fails after
    three calls with Alice at 70 and Bob at 10. *)
Example transfer_lost_debit_response :
  let out := @transfer Reference.runtime
               (post "sid-alice" [("to", JStr "bob"); ("amount", JNum (Fin 30))])
               bank_response_lost_at_debit in
  fst out = res_status_json 500 (error_obj "socket hang up")
  /\ calls (snd out)
     = [GET_users "alice"; GET_users "bob";
        PATCH_users "alice" (kvrcoin_body (Fin 70))]
  /\ balance "alice" (users (snd out)) = Some 70%Q
  /\ balance "bob" (users (snd out)) = Some 10%Q.
Proof. by vm_compute. Qed.

(** C1, amended: the debit and the credit are two separate backend updates
    and nothing is rolled back.  A transfer that fails before the debit is
    sent changes no balance.  From the debit on, the calls made are the
    first calls of the fixed sequence read, read, debit, credit, read, so
    that no call follows the one that failed, and the table holds what the
    backend applied: nothing, the debit alone or the debit and the credit.
    A debit that fails leaves every balance as it was, unless the backend
    applied it and the response was lost.  When the credit fails, the
    error is returned to the caller with the debit in place, the sender at
    the binary64 difference of balance and amount and the receiver as
    before, unless the backend applied the credit and the response was
    lost. *)
Theorem transfer_failure_without_rollback `{JsRuntime}
    (req : Request) (w w' : World) (res : Response) :
  transfer req w = (res, w') ->
  status res <> 200 ->
  let from := ToString (session_user req w) in
  let to := ToString (body_field req "to") in
  let amt := ToNumber (body_field req "amount") in
  ((calls_made w w' <= 2)%nat -> users w' = users w)
  /\ ((3 <= calls_made w w')%nat ->
      exists s r,
        balance from (users w) = Some s
        /\ balance to (users w) = Some r
        /\ calls w' =
             (calls w
              ++ firstn (calls_made w w') (transfer_calls from to s r amt))%list
        /\ (users w' = users w
            \/ exists d,
                 js_sub (Fin s) amt = Fin d
                 /\ (users w' = with_balance from d (users w)
                     \/ exists c,
                          js_add (Fin r) amt = Fin c
                          /\ users w' =
                               with_balance to c (with_balance from d (users w))))
        /\ (calls_made w w' = 3%nat ->
            (forall m, fault_at 2 w <> Some (ResponseLost m)) ->
            users w' = users w)
        /\ (calls_made w w' = 4%nat ->
            (forall m, fault_at 3 w <> Some (ResponseLost m)) ->
            exists d,
              js_sub (Fin s) amt = Fin d
              /\ users w' = with_balance from d (users w)
              /\ (from <> to ->
                  balance from (users w') = Some d
                  /\ balance to (users w') = balance to (users w)))).
Proof.
  intros Ht Hfail from to amt.
  destruct (transfer_cases req w w' res Ht) as [_ Hcases].
  fold from to amt in Hcases.
  destruct Hcases as [[-> _] | [(_ & Hu & _ & Hl) | Hrun]].
  - split; [done|]. unfold calls_made. lia.
  - split; [done|].
    destruct Hl as [Hl | Hl]; rewrite (calls_made_app _ _ _ Hl); simpl; lia.
  - destruct Hrun as (s & r & _ & Hs & Hr & _ & _ & Hrun).
    assert (Hdebited : forall d,
      from <> to ->
      balance from (with_balance from d (users w)) = Some d
      /\ balance to (with_balance from d (users w)) = balance to (users w)).
    { intros d Hne. split; [by apply balance_update_same with s|].
      by apply balance_update_other. }
    destruct Hrun as [(Hu & _ & Hc) | (d & Hd & Hrun)].
    { rewrite (calls_made_app _ _ _ Hc). simpl. split; [lia|]. intros _.
      exists s, r. repeat split; try done; try lia. by left. }
    destruct Hrun as [(Hu & _ & Hc) | (c & Hc & Hu & Hrun)].
    { destruct Hc as [[Hc (m & Hm)] | Hc];
        rewrite (calls_made_app _ _ _ Hc); simpl; (split; [lia|]); intros _;
        exists s, r; (do 3 (split; [done|])).
      - split; [right; exists d; split; [done | by left]|].
        split; [|lia]. intros _ Hnone. by destruct (Hnone m).
      - split; [right; exists d; split; [done | by left]|].
        split; [lia|]. intros _ _. exists d. rewrite Hu. auto. }
    destruct Hrun as [(_ & Hcalls & m & Hm) | (Hcalls & _)];
      rewrite (calls_made_app _ _ _ Hcalls); simpl; (split; [lia|]); intros _;
      exists s, r; (do 3 (split; [done|])).
    + split; [right; exists d; split; [done | right; by exists c]|].
      split; [lia|]. intros _ Hnone. by destruct (Hnone m).
    + split; [right; exists d; split; [done | right; by exists c]|].
      split; lia.
Qed.

(** The failed credit of the example, run through the theorem. *)
Lemma transfer_failure_without_rollback_witness :
  let req := post "sid-alice" [("to", JStr "bob"); ("amount", JNum (Fin 30))] in
  let out := @transfer Reference.runtime req bank_outage_at_credit in
  status (fst out) <> 200
  /\ calls_made bank_outage_at_credit (snd out) = 4%nat
  /\ exists d,
       js_sub (Fin 100) (Fin 30) = Fin d
       /\ users (snd out) = with_balance "alice" d (users bank_outage_at_credit)
       /\ balance "alice" (users (snd out)) = Some d
       /\ balance "bob" (users (snd out))
          = balance "bob" (users bank_outage_at_credit).
Proof.
  intros req out.
  assert (Hfail : status (fst out) <> 200) by (vm_compute; discriminate).
  assert (Hcalls : calls_made bank_outage_at_credit (snd out) = 4%nat)
    by reflexivity.
  split; [exact Hfail|]. split; [exact Hcalls|].
  destruct (proj2 (@transfer_failure_without_rollback Reference.runtime
                     req bank_outage_at_credit (snd out) (fst out)
                     (surjective_pairing _) Hfail))
    as (s & r & Hs & Hr & _ & _ & _ & Hcredit).
  { rewrite Hcalls. lia. }
  destruct (Hcredit Hcalls) as (d & Hd & Hu & Hb).
  { intros m. discriminate. }
  change (Some 100%Q = Some s) in Hs. injection Hs as <-.
  exists d. split; [exact Hd|]. split; [exact Hu|].
  apply Hb. discriminate.
Defined.

(** ** What each handler does to the table *)

Local Arguments strict_eq : simpl never.

Lemma backend_up_S n w :
  backend_up (S n) w ->
  List.hd None (outages w) = None
  /\ forall rq t, backend_up n (called rq t w).
Proof.
  unfold backend_up. destruct w as [t s o c]; simpl.
  destruct o as [|x o]; simpl.
  - intros _. split; [reflexivity|]. intros _ _. by destruct n.
  - intros Hall. apply Forall_cons in Hall as [-> Hall]. auto.
Qed.

Lemma login_users `{JsRuntime} req w : users (snd (login req w)) = users w.
Proof.
  destruct (login req w) as [res w'] eqn:Hl. simpl. unfold login in Hl.
  destruct (_ || _); [by simplify_eq|].
  unfold try_catch in Hl. await_call Hl.
  { apply backendFetch_read_throws in Hcall as [-> _]; [|reflexivity].
    by simplify_eq. }
  apply GET_users_pin_returns in Hcall as (r & _ & -> & ->).
  simpl in Hl. unfold async_bind, async_ret in Hl. simpl in Hl.
  destruct (negb _); by simplify_eq.
Qed.

Lemma me_users `{JsRuntime} req w : users (snd (me req w)) = users w.
Proof.
  destruct (me req w) as [res w'] eqn:Hm. simpl. unfold me in Hm.
  destruct (negb _); [by simplify_eq|].
  unfold try_catch in Hm. await_call Hm.
  { apply backendFetch_read_throws in Hcall as [-> _]; [|reflexivity].
    by simplify_eq. }
  apply GET_users_returns in Hcall as (r & _ & -> & ->).
  unfold async_ret in Hm. by simplify_eq.
Qed.

Lemma chess_leaderboard_users req w :
  users (snd (chess_leaderboard req w)) = users w.
Proof.
  destruct (chess_leaderboard req w) as [res w'] eqn:Hm. simpl.
  unfold chess_leaderboard, try_catch in Hm. await_call Hm.
  { apply backendFetch_read_throws in Hcall as [-> _]; [|reflexivity].
    by simplify_eq. }
  apply backendFetch_returns in Hcall as (_ & _ & ->).
  unfold async_ret in Hm. by simplify_eq.
Qed.

Lemma strict_eq_JStr (s : string) (v : JsValue) :
  strict_eq (JStr s) v = true <-> v = JStr s.
Proof.
  destruct v; unfold strict_eq; try (split; [discriminate | congruence]).
  rewrite String.eqb_eq. split; congruence.
Qed.

(** A PATCH of the pin that the backend applies was of a PIN that no other
    account holds. *)
Lemma pin_body_applied u p t r r' :
  patch_row (pin_body p) r = Some r' ->
  sets_pin (pin_body p) && pin_in_use u (row_pin r') t = false ->
  r' = set_pin p r /\ pin_in_use u p t = false.
Proof. rewrite patch_row_pin. intros [= <-]. simpl. auto. Qed.

(** Every run of the change-PIN handler: either the table is untouched and
    the response is an error, or the old PIN resolved to the session's
    user, no other account held the new PIN and the backend applied the
    PATCH of that user's pin; the answer is then the backend's, unless it
    was lost. *)
Lemma change_pin_cases `{JsRuntime} (req : Request) (w w' : World) (res : Response) :
  change_pin req w = (res, w') ->
  (users w' = users w /\ status res <> 200)
  \/ (exists r r0,
        List.hd None (outages w) = None
        /\ is_undefined (body_field req "new_pin") = false
        /\ is_undefined (body_field req "old_pin") = false
        /\ find_pin (ToString (body_field req "old_pin")) (users w) = Some r
        /\ session_user req w = JStr (row_username r)
        /\ find_user (row_username r) (users w) = Some r0
        /\ pin_in_use (row_username r) (ToString (body_field req "new_pin"))
             (users w) = false
        /\ users w' = update_rows (row_username r)
                        (pin_body (ToString (body_field req "new_pin"))) (users w)
        /\ calls w' =
             (calls w ++
              [GET_users_pin (ToString (body_field req "old_pin"));
               PATCH_users (row_username r)
                 (pin_body (ToString (body_field req "new_pin")))])%list
        /\ (res = res_json
                    (user_to_dict
                       (set_pin (ToString (body_field req "new_pin")) r0))
            \/ (status res <> 200
                /\ exists m, fault_at 1 w = Some (ResponseLost m)))).
Proof.
  intros Hc. unfold change_pin in Hc.
  destruct (negb (truthy (session_user req w)));
    [simplify_eq; left; split; [reflexivity | discriminate]|].
  destruct (is_undefined (body_field req "new_pin")) eqn:Hnew;
    [simpl in Hc; simplify_eq; left; split; [reflexivity | discriminate]|].
  destruct (is_undefined (body_field req "old_pin")) eqn:Hold;
    [simpl in Hc; simplify_eq; left; split; [reflexivity | discriminate]|].
  simpl in Hc. unfold try_catch, encodeURIComponent in Hc.
  await_call Hc.
  { apply backendFetch_read_throws in Hcall as [-> Hst]; [|reflexivity].
    simplify_eq. left. by split. }
  pose proof (backendFetch_returns _ _ _ _ Hcall) as (Hup & _ & _).
  apply GET_users_pin_returns in Hcall as (r & Hr & -> & ->).
  simpl in Hc. unfold async_bind at 1 in Hc. simpl in Hc.
  change (own_property _ "username") with (JStr (row_username r)) in Hc.
  destruct (strict_eq (JStr (row_username r)) (session_user req w)) eqn:Heq;
    simpl in Hc;
    [|unfold async_ret in Hc; simplify_eq; left; split; [reflexivity | discriminate]].
  apply strict_eq_JStr in Heq. rewrite Heq in Hc. simpl in Hc.
  await_call Hc.
  { apply PATCH_users_throws in Hcall
      as [Hst [-> | (m & r0 & r1 & Hm & Hr0 & Hp & Hfree & ->)]]; simplify_eq.
    - left. by split.
    - apply (pin_body_applied _ _ _ _ _ Hp) in Hfree as [-> Hfree].
      right. exists r, r0. simpl. rewrite <- app_assoc.
      do 9 (split; [done|]). right. split; [exact Hst|]. exists m.
      by rewrite <- Hm, <- fault_at_0, !fault_at_called. }
  apply PATCH_users_returns in Hcall as (r0 & r1 & Hr0 & Hp & Hfree & -> & ->).
  apply (pin_body_applied _ _ _ _ _ Hp) in Hfree as [-> Hfree].
  unfold async_ret in Hc. simplify_eq.
  right. exists r, r0. simpl. rewrite <- app_assoc.
  do 9 (split; [done|]). by left.
Qed.

Lemma nonneg_update_pin u p t :
  nonneg_balances t -> nonneg_balances (update_rows u (pin_body p) t).
Proof.
  unfold nonneg_balances, update_rows. intros Hn.
  apply List.Forall_map. eapply List.Forall_impl; [|exact Hn].
  intros r Hr. by destruct (String.eqb (row_username r) u).
Qed.

Lemma nonneg_update_kvrcoin u q t :
  (0 <= q)%Q -> nonneg_balances t ->
  nonneg_balances (update_rows u (kvrcoin_body (Fin q)) t).
Proof.
  unfold nonneg_balances, update_rows. intros Hq Hn.
  apply List.Forall_map. eapply List.Forall_impl; [|exact Hn].
  intros r Hr. by destruct (String.eqb (row_username r) u).
Qed.

Lemma balance_nonneg u t s :
  nonneg_balances t -> balance u t = Some s -> (0 <= s)%Q.
Proof.
  unfold nonneg_balances, balance. intros Hn Hb.
  destruct (find_user u t) as [r|] eqn:Hr; [|discriminate].
  simpl in Hb. simplify_eq.
  apply find_user_In in Hr. rewrite List.Forall_forall in Hn. auto.
Qed.

(** ** Insufficient funds and non-negative balances *)

Lemma exceeds_balance_valid (s : Q) (amt : JsNumber) :
  (0 <= s)%Q -> js_lt (Fin s) amt = true ->
  js_isNaN amt || js_le amt (Fin 0) = false.
Proof.
  intros Hs Hlt. unfold js_lt in Hlt.
  destruct amt as [| | |a]; simpl in Hlt; [by destruct (round64 s) | reflexivity
                                          | by destruct (round64 s) |].
  simpl. apply not_true_iff_false. intros Hle.
  unfold js_le, binary64 in Hle. rewrite round64_0 in Hle.
  destruct (round64_nonneg s Hs) as [Hr | (s' & Hr & Hs')]; rewrite Hr in Hlt.
  - destruct (round64 a); discriminate.
  - destruct (round64 a) as [| | |a']; try discriminate.
    apply Qltb_lt in Hlt. apply Qle_bool_iff in Hle.
    apply (Qlt_irrefl s'). eapply Qlt_le_trans; [exact Hlt|].
    eapply Qle_trans; [exact Hle | exact Hs'].
Qed.

Lemma transfer_preserves_nonneg `{JsRuntime} req w :
  nonneg_balances (users w) ->
  nonneg_balances (users (snd (transfer req w))).
Proof.
  intros Hn. destruct (transfer req w) as [res w'] eqn:Ht. simpl.
  destruct (transfer_cases req w w' res Ht) as [_ Hcases].
  destruct Hcases as [[-> _] | [(_ & -> & _) | Hrun]]; try done.
  destruct Hrun as (s & r & _ & Hs & Hr & Hvalid & Hfunds & Hrun).
  destruct Hrun as [(-> & _) | (d & Hd & Hrun)]; [done|].
  destruct (js_sub_finite _ _ _ Hd) as [a Ha].
  rewrite Ha in *.
  destruct (valid_amount _ Hvalid) as [? | (a' & [= <-] & Hpos)]; [done|].
  pose proof (js_sub_nonneg s a d Hfunds Hd) as Hdebit.
  destruct Hrun as [(-> & _) | (c & Hc & -> & _)]; unfold with_balance.
  - by apply nonneg_update_kvrcoin.
  - apply (balance_nonneg _ _ _ Hn) in Hr. apply Qlt_le_weak in Hpos.
    pose proof (js_add_nonneg r a c Hr Hpos Hc) as Hcredit.
    auto using nonneg_update_kvrcoin.
Qed.

Lemma change_pin_preserves_nonneg `{JsRuntime} req w :
  nonneg_balances (users w) ->
  nonneg_balances (users (snd (change_pin req w))).
Proof.
  intros Hn. destruct (change_pin req w) as [res w'] eqn:Hc. simpl.
  destruct (change_pin_cases req w w' res Hc)
    as [[-> _] | (r & r0 & _ & _ & _ & _ & _ & _ & _ & -> & _)]; [done|].
  by apply nonneg_update_pin.
Qed.

(** C5: a transfer whose amount exceeds the sender's balance fails and
    changes no balance, and the failure is the 400 "insufficient funds"
    whenever the request is a well-formed transfer to an existing account
    and the backend answers; no request to any route makes a balance
    negative. *)
Theorem insufficient_funds_and_nonneg_balances `{JsRuntime} :
  (forall (req : Request) (w : World) (s : Q),
     balance (ToString (session_user req w)) (users w) = Some s ->
     js_lt (Fin s) (ToNumber (body_field req "amount")) = true ->
     users (snd (transfer req w)) = users w
     /\ status (fst (transfer req w)) <> 200
     /\ ((0 <= s)%Q ->
         truthy (session_user req w) = true ->
         truthy (body_field req "to") = true ->
         find_user (ToString (body_field req "to")) (users w) <> None ->
         backend_up 2 w ->
         fst (transfer req w)
           = res_status_json 400 (error_obj "insufficient funds")))
  /\ (forall (route : Route) (req : Request) (w : World),
        nonneg_balances (users w) ->
        nonneg_balances (users (snd (handle route req w)))).
Proof.
  split.
  - intros req w s Hs Hlt.
    assert (Hsafe : users (snd (transfer req w)) = users w
                    /\ status (fst (transfer req w)) <> 200).
    { destruct (transfer req w) as [res w'] eqn:Ht. simpl.
      destruct (transfer_cases req w w' res Ht) as [_ Hcases].
      destruct Hcases as [[-> [Hst|Hst]] | [(_ & Hu & Hst & _) | Hrun]];
        try (split; [done | rewrite Hst; discriminate]); try done.
      destruct Hrun as (s0 & r & _ & Hs0 & _ & _ & Hfunds & _).
      rewrite Hs in Hs0. simplify_eq. congruence. }
    destruct Hsafe as [Hu Hst]. repeat split; try done.
    intros Hpos Hfrom Hto Hrecv Hup.
    pose proof (exceeds_balance_valid _ _ Hpos Hlt) as Hamt.
    unfold transfer. rewrite Hfrom, Hto, Hamt. simpl.
    destruct (body_field req "amount") eqn:Hamount; try discriminate; simpl;
      unfold try_catch, encodeURIComponent, async_bind;
      apply backend_up_S in Hup as [Hup1 Hup];
      rewrite (backendFetch_up _ _ Hup1); simpl;
      pose proof (proj1 (backend_up_S _ _
        (Hup (GET_users (ToString (session_user req w))) (users w)))) as Hup2;
      unfold balance in Hs;
      destruct (find_user (ToString (session_user req w)) (users w)) as [rs|];
        try discriminate; simpl in Hs; simplify_eq; simpl;
      rewrite (backendFetch_up _ _ Hup2); simpl;
      destruct (find_user (ToString (body_field req "to")) (users w)) as [rr|];
        try done; simpl;
      simpl in Hlt; by rewrite Hlt.
  - intros route req w Hn. destruct route; simpl.
    + by rewrite login_users.
    + done.
    + by rewrite me_users.
    + by apply transfer_preserves_nonneg.
    + by apply change_pin_preserves_nonneg.
    + by rewrite chess_leaderboard_users.
Qed.

(** The scenario of the specification: Alice (100) tries to send 200 to
    Bob (10); and the table after her transfer of 30 keeps every balance
    non-negative. *)
Lemma insufficient_funds_and_nonneg_balances_witness :
  let req := post "sid-alice" [("to", JStr "bob"); ("amount", JNum (Fin 200))] in
  let req' := post "sid-alice" [("to", JStr "bob"); ("amount", JNum (Fin 30))] in
  (users (snd (@transfer Reference.runtime req bank)) = users bank
   /\ status (fst (@transfer Reference.runtime req bank)) <> 200
   /\ fst (@transfer Reference.runtime req bank)
        = res_status_json 400 (error_obj "insufficient funds"))
  /\ nonneg_balances
       (users (snd (@handle Reference.runtime POST_api_transfer req' bank))).
Proof.
  intros req req'.
  pose proof (@insufficient_funds_and_nonneg_balances Reference.runtime)
    as [Hfunds Hnonneg].
  split.
  - destruct (Hfunds req bank 100%Q) as (Hu & Hst & Hres);
      [reflexivity | reflexivity |].
    split; [exact Hu|]. split; [exact Hst|].
    apply Hres.
    + discriminate.
    + reflexivity.
    + reflexivity.
    + discriminate.
    + constructor.
  - apply Hnonneg. repeat constructor; discriminate.
Defined.

(** ** Validation of the amount *)

(** Line 83 rejects NaN, -Infinity and the finite numbers that are
    negative or zero. *)
Lemma invalid_amount (amt : JsNumber) :
  amt = NaN \/ amt = NInf \/ (exists q, amt = Fin q /\ (q <= 0)%Q) ->
  js_isNaN amt || js_le amt (Fin 0) = true.
Proof.
  intros [-> | [-> | (q & -> & Hq)]]; [reflexivity | reflexivity |].
  simpl. by apply js_le_0.
Qed.

(** C6 as the specification states it fails for +Infinity: the amount check
    lets it through and both accounts are read from the backend before the
    request is rejected. *)
Lemma transfer_infinite_amount_reads_storage :
  let out := @transfer Reference.runtime
               (post "sid-alice" [("to", JStr "bob"); ("amount", JNum PInf)])
               bank in
  js_isFinite (@ToNumber Reference.runtime (JNum PInf)) = false
  /\ @ToNumber Reference.runtime (JStr "Infinity") = PInf
  /\ calls bank = []
  /\ calls (snd out) = [GET_users "alice"; GET_users "bob"]
  /\ fst out = res_status_json 400 (error_obj "insufficient funds").
Proof. by vm_compute. Qed.

(** C6, amended: a transfer whose amount is NaN, negative (-Infinity
    included) or zero is rejected with status 400 or 401 before any backend
    call, leaving the world as it was.  A transfer whose amount is
    +Infinity passes the amount check; it is rejected as well and writes
    nothing, but only after the backend has been asked for the accounts. *)
Theorem invalid_amount_rejected `{JsRuntime} (req : Request) (w : World) :
  let amt := ToNumber (body_field req "amount") in
  ((amt = NaN \/ amt = NInf \/ exists q, amt = Fin q /\ (q <= 0)%Q) ->
   snd (transfer req w) = w
   /\ (status (fst (transfer req w)) = 400
       \/ status (fst (transfer req w)) = 401))
  /\ (amt = PInf ->
      users (snd (transfer req w)) = users w
      /\ status (fst (transfer req w)) <> 200).
Proof.
  intros amt. split.
  - intros Hbad. apply invalid_amount in Hbad.
    unfold transfer. fold amt. rewrite Hbad.
    destruct (negb (truthy (session_user req w))); [simpl; auto|].
    destruct (negb (truthy (body_field req "to")) || _); simpl; auto.
  - intros Hinf.
    destruct (transfer req w) as [res w'] eqn:Ht. simpl.
    destruct (transfer_cases req w w' res Ht) as [_ Hcases].
    destruct Hcases as [[-> [Hst|Hst]] | [(_ & Hu & Hst & _) | Hrun]];
      try (split; [done | rewrite Hst; discriminate]); try done.
    destruct Hrun as (s & r & _ & _ & _ & _ & _ & Hrun).
    fold amt in Hrun. rewrite Hinf in Hrun.
    destruct Hrun as [(Hu & Hst & _) | (d & Hd & _)]; [done|].
    apply js_sub_finite in Hd as [a Ha]. discriminate.
Qed.

(** A zero amount and an infinite amount, run through the theorem. *)
Lemma invalid_amount_rejected_witness :
  let zero := post "sid-alice" [("to", JStr "bob"); ("amount", JNum (Fin 0))] in
  let inf := post "sid-alice" [("to", JStr "bob"); ("amount", JNum PInf)] in
  (snd (@transfer Reference.runtime zero bank) = bank
   /\ (status (fst (@transfer Reference.runtime zero bank)) = 400
       \/ status (fst (@transfer Reference.runtime zero bank)) = 401))
  /\ (users (snd (@transfer Reference.runtime inf bank)) = users bank
      /\ status (fst (@transfer Reference.runtime inf bank)) <> 200).
Proof.
  intros zero inf. split.
  - apply (proj1 (@invalid_amount_rejected Reference.runtime zero bank)).
    right; right. exists 0%Q. split; [reflexivity | discriminate].
  - apply (proj2 (@invalid_amount_rejected Reference.runtime inf bank)).
    reflexivity.
Defined.

(** ** Sessions *)

(** C9: logging out always answers 200 "logged out", whatever the state
    of the session, and logging out a second time gives the same answer
    and leaves the world as the first logout left it. *)
Theorem logout_idempotent (req : Request) (w : World) :
  fst (logout req w) = res_json (message_obj "logged out")
  /\ status (fst (logout req w)) = 200
  /\ session_user req (snd (logout req w)) = JUndefined
  /\ users (snd (logout req w)) = users w
  /\ logout req (snd (logout req w)) = logout req w.
Proof.
  unfold logout, session_user. simpl.
  rewrite lookup_delete_eq. repeat split.
  unfold set_sessions. simpl. by rewrite delete_delete_eq.
Qed.

(** ** Self-transfer *)

Lemma find_user_update_exists u v body t :
  find_user v t <> None -> find_user v (update_rows u body t) <> None.
Proof.
  unfold find_user, update_rows.
  induction t as [|x t IH]; simpl; [done|].
  destruct (String.eqb (row_username x) u) eqn:Hx.
  - rewrite patched_username.
    destruct (String.eqb (row_username x) v); [done | exact IH].
  - destruct (String.eqb (row_username x) v); [done | exact IH].
Qed.

(** A well-formed transfer with sufficient funds, whose debit and credit
    are finite numbers, goes through when the backend answers its five
    calls, whether or not the receiver is the sender. *)
Lemma transfer_succeeds `{JsRuntime} (req : Request) (w : World)
    (rs rr : UserRow) (a d c : Q) :
  backend_up 5 w ->
  truthy (session_user req w) = true ->
  truthy (body_field req "to") = true ->
  ToNumber (body_field req "amount") = Fin a ->
  js_le (Fin a) (Fin 0) = false ->
  find_user (ToString (session_user req w)) (users w) = Some rs ->
  find_user (ToString (body_field req "to")) (users w) = Some rr ->
  js_lt (Fin (row_kvrcoin rs)) (Fin a) = false ->
  js_sub (Fin (row_kvrcoin rs)) (Fin a) = Fin d ->
  js_add (Fin (row_kvrcoin rr)) (Fin a) = Fin c ->
  status (fst (transfer req w)) = 200
  /\ users (snd (transfer req w))
     = with_balance (ToString (body_field req "to")) c
         (with_balance (ToString (session_user req w)) d (users w)).
Proof.
  intros Hup Hfrom Hto Hamt Hpos Hrs Hrr Hfunds Hd Hc.
  set (from := ToString (session_user req w)) in *.
  set (to := ToString (body_field req "to")) in *.
  assert (Hdef : is_undefined (body_field req "amount") = false).
  { destruct (body_field req "amount"); try reflexivity. discriminate. }
  assert (Hvalid : js_isNaN (Fin a) || js_le (Fin a) (Fin 0) = false)
    by exact Hpos.
  apply backend_up_S in Hup as [Hup1 Hup].
  set (w1 := called (GET_users from) (users w) w).
  pose proof (Hup (GET_users from) (users w)) as Hup'. fold w1 in Hup'.
  clear Hup. apply backend_up_S in Hup' as [Hup2 Hup].
  set (w2 := called (GET_users to) (users w) w1).
  pose proof (Hup (GET_users to) (users w)) as Hup'. fold w2 in Hup'.
  clear Hup. apply backend_up_S in Hup' as [Hup3 Hup].
  set (t3 := with_balance from d (users w)).
  set (b3 := kvrcoin_body (Fin d)).
  set (w3 := called (PATCH_users from b3) t3 w2).
  pose proof (Hup (PATCH_users from b3) t3) as Hup'. fold w3 in Hup'.
  clear Hup. apply backend_up_S in Hup' as [Hup4 Hup].
  set (t4 := with_balance to c t3).
  set (b4 := kvrcoin_body (Fin c)).
  set (w4 := called (PATCH_users to b4) t4 w3).
  pose proof (Hup (PATCH_users to b4) t4) as Hup'. fold w4 in Hup'.
  clear Hup. apply backend_up_S in Hup' as [Hup5 _].
  (* the five calls *)
  assert (H1 : backendFetch (GET_users from) w = (inr (user_to_dict rs), w1)).
  { rewrite (backendFetch_up _ _ Hup1). simpl. by rewrite Hrs. }
  assert (H2 : backendFetch (GET_users to) w1 = (inr (user_to_dict rr), w2)).
  { rewrite (backendFetch_up _ _ Hup2). simpl. by rewrite Hrr. }
  assert (H3 : exists v, backendFetch (PATCH_users from b3) w2 = (inr v, w3)).
  { rewrite (backendFetch_up _ _ Hup3). simpl. rewrite Hrs. simpl. eauto. }
  destruct H3 as [v3 H3].
  assert (H4 : exists v, backendFetch (PATCH_users to b4) w3 = (inr v, w4)).
  { rewrite (backendFetch_up _ _ Hup4). simpl.
    destruct (find_user to t3) as [r4|] eqn:Hr4; simpl; [eauto|].
    exfalso. revert Hr4. apply find_user_update_exists. by rewrite Hrr. }
  destruct H4 as [v4 H4].
  assert (H5 : exists v, backendFetch (GET_users from) w4
                         = (inr v, called (GET_users from) t4 w4)).
  { rewrite (backendFetch_up _ _ Hup5). simpl.
    destruct (find_user from t4) as [r5|] eqn:Hr5; simpl; [eauto|].
    exfalso. revert Hr5. do 2 apply find_user_update_exists. by rewrite Hrs. }
  destruct H5 as [v5 H5].
  unfold transfer. fold from to. rewrite Hfrom, Hto, Hdef, Hamt, Hvalid. simpl.
  unfold try_catch, encodeURIComponent, async_bind. fold from to.
  rewrite H1, H2. simpl. rewrite Hfunds, Hd. fold b3. rewrite H3. simpl.
  rewrite Hc. fold b4. rewrite H4, H5. simpl. done.
Qed.

(** C2: the handler has no check that the receiver differs from the
    sender.  A transfer to oneself with sufficient funds is answered 200,
    and since the credit is computed from the balance read before the
    debit, the balance ends at the binary64 sum of the balance and the
    amount; for an integer balance and amount whose sum is below 2^53 that
    is the balance increased by exactly the amount.  Alice (100) sending 30
    to herself ends at 130. *)
Theorem self_transfer_is_accepted `{JsRuntime} :
  (forall (req : Request) (w : World) (s a : Q),
     backend_up 5 w ->
     truthy (session_user req w) = true ->
     truthy (body_field req "to") = true ->
     ToString (body_field req "to") = ToString (session_user req w) ->
     ToNumber (body_field req "amount") = Fin a ->
     balance (ToString (session_user req w)) (users w) = Some s ->
     (forall d c : Q,
        js_le (Fin a) (Fin 0) = false ->
        js_lt (Fin s) (Fin a) = false ->
        js_sub (Fin s) (Fin a) = Fin d ->
        js_add (Fin s) (Fin a) = Fin c ->
        status (fst (transfer req w)) = 200
        /\ balance (ToString (session_user req w)) (users (snd (transfer req w)))
           = Some c)
     /\ (forall zs za : Z,
           (0 < a)%Q -> (a <= s)%Q ->
           (s == inject_Z zs)%Q -> (a == inject_Z za)%Q -> zs + za < 2 ^ 53 ->
           status (fst (transfer req w)) = 200
           /\ exists s',
                balance (ToString (session_user req w))
                  (users (snd (transfer req w))) = Some s'
                /\ (s' == s + a)%Q))
  /\ (let out := transfer
                   (post "sid-alice" [("to", JStr "alice"); ("amount", JNum (Fin 30))])
                   bank in
      session_user (post "sid-alice" []) bank = JStr "alice"
      /\ balance "alice" (users bank) = Some 100%Q
      /\ status (fst out) = 200
      /\ balance "alice" (users (snd out)) = Some 130%Q
      /\ calls (snd out) =
           [GET_users "alice"; GET_users "alice";
            PATCH_users "alice" (kvrcoin_body (Fin 70));
            PATCH_users "alice" (kvrcoin_body (Fin 130));
            GET_users "alice"]).
Proof.
  split; [|by vm_compute].
  intros req w s a Hup Hfrom Hto Hself Hamt Hs.
  unfold balance in Hs.
  destruct (find_user (ToString (session_user req w)) (users w)) as [rs|] eqn:Hrs;
    [|discriminate].
  simpl in Hs. simplify_eq.
  assert (Hbinary64 : forall d c : Q,
    js_le (Fin a) (Fin 0) = false ->
    js_lt (Fin (row_kvrcoin rs)) (Fin a) = false ->
    js_sub (Fin (row_kvrcoin rs)) (Fin a) = Fin d ->
    js_add (Fin (row_kvrcoin rs)) (Fin a) = Fin c ->
    status (fst (transfer req w)) = 200
    /\ balance (ToString (session_user req w)) (users (snd (transfer req w)))
       = Some c).
  { intros d c Hpos Hfunds Hd Hc.
    destruct (transfer_succeeds req w rs rs a d c) as [Hok Hu]; try done.
    { by rewrite Hself. }
    split; [exact Hok|]. rewrite Hu, Hself.
    apply balance_update_same with d.
    apply balance_update_same with (row_kvrcoin rs).
    unfold balance. by rewrite Hrs. }
  split; [exact Hbinary64|].
  intros zs za Hpos Hle Hzs Hza Hsum.
  assert (Hza_pos : 0 < za) by (rewrite Zlt_Qlt; by rewrite <- Hza).
  assert (Hza_le : za <= zs) by (rewrite Zle_Qle; by rewrite <- Hza, <- Hzs).
  destruct (Hbinary64 (inject_Z (zs - za)) (inject_Z (zs + za))) as [Hok Hb].
  { unfold js_le, binary64.
    rewrite (round64_integer a za Hza), round64_0 by lia.
    apply not_true_iff_false. rewrite Qle_bool_iff.
    apply Qlt_not_le. by rewrite <- Hza. }
  { rewrite (js_lt_integers _ _ zs za Hzs Hza) by lia. lia. }
  { apply js_sub_integers; [done | done | lia..]. }
  { apply js_add_integers; [done | done | lia..]. }
  split; [exact Hok|]. eexists. split; [exact Hb|].
  rewrite Hzs, Hza. unfold Qeq, inject_Z. simpl. lia.
Qed.

(** Alice's transfer to herself, run through the theorem. *)
Lemma self_transfer_is_accepted_witness :
  let req := post "sid-alice" [("to", JStr "alice"); ("amount", JNum (Fin 30))] in
  status (fst (@transfer Reference.runtime req bank)) = 200
  /\ exists s',
       balance "alice" (users (snd (@transfer Reference.runtime req bank)))
         = Some s'
       /\ (s' == 100 + 30)%Q.
Proof.
  intros req.
  apply (proj2 (proj1 (@self_transfer_is_accepted Reference.runtime)
                  req bank 100%Q 30%Q
                  ltac:(constructor) eq_refl eq_refl eq_refl eq_refl eq_refl)
           100 30).
  - reflexivity.
  - discriminate.
  - reflexivity.
  - reflexivity.
  - reflexivity.
Defined.

(** ** Failed logins *)

(** An unknown PIN surfaces the backend's 404. *)
Lemma login_unknown_pin `{JsRuntime} (req : Request) (w : World) :
  truthy (body_field req "username") = true ->
  is_undefined (body_field req "pin") = false ->
  List.hd None (outages w) = None ->
  find_pin (ToString (body_field req "pin")) (users w) = None ->
  fst (login req w) = user_not_found.
Proof.
  intros Hu Hp Hup Hnone. unfold login. rewrite Hu, Hp. simpl.
  unfold try_catch, async_bind, encodeURIComponent.
  rewrite (backendFetch_up _ _ Hup). simpl. by rewrite Hnone.
Qed.

(** A PIN that belongs to somebody else is answered 401. *)
Lemma login_pin_of_other_user `{JsRuntime} (req : Request) (w : World) (r : UserRow) :
  truthy (body_field req "username") = true ->
  is_undefined (body_field req "pin") = false ->
  List.hd None (outages w) = None ->
  find_pin (ToString (body_field req "pin")) (users w) = Some r ->
  body_field req "username" <> JStr (row_username r) ->
  fst (login req w) = res_status_json 401 (error_obj "Invalid username or pin").
Proof.
  intros Hu Hp Hup Hr Hne. unfold login. rewrite Hu, Hp. simpl.
  unfold try_catch, async_bind, encodeURIComponent.
  rewrite (backendFetch_up _ _ Hup). simpl. rewrite Hr. simpl.
  change (own_property _ "username") with (JStr (row_username r)).
  destruct (strict_eq _ _) eqn:Heq; [|reflexivity].
  by apply strict_eq_JStr in Heq.
Qed.

(** C3: the two failures of a login are told apart.  When the backend
    answers, a PIN that no account has is answered with the backend's 404
    "User not found", which the catch block forwards, while a PIN of
    another account is answered 401 "Invalid username or pin"; so it is for
    alice logging in with the unused PIN 9999 and with carol's PIN 3333. *)
Theorem login_failures_differ `{JsRuntime} :
  (forall (req : Request) (w : World),
     truthy (body_field req "username") = true ->
     is_undefined (body_field req "pin") = false ->
     List.hd None (outages w) = None ->
     (find_pin (ToString (body_field req "pin")) (users w) = None ->
      fst (login req w) = user_not_found)
     /\ (forall r,
           find_pin (ToString (body_field req "pin")) (users w) = Some r ->
           body_field req "username" <> JStr (row_username r) ->
           fst (login req w)
             = res_status_json 401 (error_obj "Invalid username or pin")))
  /\ (let unknown := login (post "sid-new"
                              [("username", JStr "alice"); ("pin", JStr "9999")])
                           bank in
      let other := login (post "sid-new"
                            [("username", JStr "alice"); ("pin", JStr "3333")])
                         bank in
      find_pin "9999" (users bank) = None
      /\ row_username <$> find_pin "3333" (users bank) = Some "carol"
      /\ fst unknown = user_not_found
      /\ status (fst unknown) = 404
      /\ fst other = res_status_json 401 (error_obj "Invalid username or pin")
      /\ status (fst unknown) <> status (fst other)).
Proof.
  split; [|by vm_compute].
  intros req w Hu Hp Hup. split.
  - by apply login_unknown_pin.
  - intros r Hr Hne. by apply (login_pin_of_other_user req w r).
Qed.

(** Alice's two failed logins, run through the theorem. *)
Lemma login_failures_differ_witness :
  let unknown := post "sid-new" [("username", JStr "alice"); ("pin", JStr "9999")] in
  let other := post "sid-new" [("username", JStr "alice"); ("pin", JStr "3333")] in
  fst (@login Reference.runtime unknown bank) = user_not_found
  /\ fst (@login Reference.runtime other bank)
     = res_status_json 401 (error_obj "Invalid username or pin").
Proof.
  intros unknown other. split.
  - apply (proj1 (proj1 (@login_failures_differ Reference.runtime) unknown bank
                    eq_refl eq_refl eq_refl)).
    reflexivity.
  - apply (proj2 (proj1 (@login_failures_differ Reference.runtime) other bank
                    eq_refl eq_refl eq_refl) carol).
    + reflexivity.
    + discriminate.
Defined.

(** ** Changing the PIN *)

(** The update of a PIN is guarded by the old PIN: unless the old PIN
    resolves to the session's user the table is left alone and the answer
    is an error. *)
Lemma change_pin_guarded `{JsRuntime} (req : Request) (w : World) :
  (forall r, find_pin (ToString (body_field req "old_pin")) (users w) = Some r ->
             session_user req w <> JStr (row_username r)) ->
  users (snd (change_pin req w)) = users w
  /\ status (fst (change_pin req w)) <> 200.
Proof.
  intros Hguard. destruct (change_pin req w) as [res w'] eqn:Hc. simpl.
  destruct (change_pin_cases req w w' res Hc)
    as [? | (r & r0 & _ & _ & _ & Hr & Hs & _)]; [done|].
  by destruct (Hguard r Hr).
Qed.

(** An old PIN that no account has surfaces the backend's 404. *)
Lemma change_pin_old_pin_unknown `{JsRuntime} (req : Request) (w : World) :
  truthy (session_user req w) = true ->
  is_undefined (body_field req "new_pin") = false ->
  is_undefined (body_field req "old_pin") = false ->
  List.hd None (outages w) = None ->
  find_pin (ToString (body_field req "old_pin")) (users w) = None ->
  fst (change_pin req w) = user_not_found.
Proof.
  intros Hu Hnew Hold Hup Hnone. unfold change_pin. rewrite Hu, Hnew, Hold. simpl.
  unfold try_catch, async_bind, encodeURIComponent.
  rewrite (backendFetch_up _ _ Hup). simpl. by rewrite Hnone.
Qed.

(** An old PIN of another account is answered 401. *)
Lemma change_pin_old_pin_of_other_user `{JsRuntime}
    (req : Request) (w : World) (r : UserRow) :
  truthy (session_user req w) = true ->
  is_undefined (body_field req "new_pin") = false ->
  is_undefined (body_field req "old_pin") = false ->
  List.hd None (outages w) = None ->
  find_pin (ToString (body_field req "old_pin")) (users w) = Some r ->
  session_user req w <> JStr (row_username r) ->
  fst (change_pin req w) = res_status_json 401 (error_obj "Old PIN is incorrect").
Proof.
  intros Hu Hnew Hold Hup Hr Hne. unfold change_pin. rewrite Hu, Hnew, Hold. simpl.
  unfold try_catch, async_bind, encodeURIComponent.
  rewrite (backendFetch_up _ _ Hup). simpl. rewrite Hr. simpl.
  change (own_property _ "username") with (JStr (row_username r)).
  destruct (strict_eq _ _) eqn:Heq; [|reflexivity].
  by apply strict_eq_JStr in Heq.
Qed.

(** C7: the old PIN is looked up before anything is written, and no PIN
    changes unless it resolves to the session's user; but while an old PIN
    of another account is answered 401 "Old PIN is incorrect", an old PIN
    that no account has is answered with the backend's 404 "User not
    found".  So it is for alice giving the unused PIN 9999 and bob's PIN
    2222 as her old PIN. *)
Theorem change_pin_unknown_old_pin `{JsRuntime} :
  (forall (req : Request) (w : World),
     truthy (session_user req w) = true ->
     is_undefined (body_field req "new_pin") = false ->
     is_undefined (body_field req "old_pin") = false ->
     List.hd None (outages w) = None ->
     (find_pin (ToString (body_field req "old_pin")) (users w) = None ->
      fst (change_pin req w) = user_not_found
      /\ users (snd (change_pin req w)) = users w)
     /\ (forall r,
           find_pin (ToString (body_field req "old_pin")) (users w) = Some r ->
           session_user req w <> JStr (row_username r) ->
           fst (change_pin req w)
             = res_status_json 401 (error_obj "Old PIN is incorrect")
           /\ users (snd (change_pin req w)) = users w))
  /\ (let unknown := change_pin
                        (post "sid-alice"
                           [("old_pin", JStr "9999"); ("new_pin", JStr "4444")])
                        bank in
      let other := change_pin
                      (post "sid-alice"
                         [("old_pin", JStr "2222"); ("new_pin", JStr "4444")])
                      bank in
      find_pin "9999" (users bank) = None
      /\ row_username <$> find_pin "2222" (users bank) = Some "bob"
      /\ fst unknown = user_not_found
      /\ status (fst unknown) = 404
      /\ users (snd unknown) = users bank
      /\ fst other = res_status_json 401 (error_obj "Old PIN is incorrect")
      /\ users (snd other) = users bank).
Proof.
  split; [|by vm_compute].
  intros req w Hu Hnew Hold Hup. split.
  - intros Hnone. split; [by apply change_pin_old_pin_unknown|].
    apply change_pin_guarded. intros r Hr. congruence.
  - intros r Hr Hne.
    split; [by apply (change_pin_old_pin_of_other_user req w r)|].
    apply change_pin_guarded. intros r' Hr'. congruence.
Qed.

(** Alice's two failed changes of PIN, run through the theorem. *)
Lemma change_pin_unknown_old_pin_witness :
  let unknown := post "sid-alice"
                   [("old_pin", JStr "9999"); ("new_pin", JStr "4444")] in
  let other := post "sid-alice"
                 [("old_pin", JStr "2222"); ("new_pin", JStr "4444")] in
  (fst (@change_pin Reference.runtime unknown bank) = user_not_found
   /\ users (snd (@change_pin Reference.runtime unknown bank)) = users bank)
  /\ (fst (@change_pin Reference.runtime other bank)
        = res_status_json 401 (error_obj "Old PIN is incorrect")
      /\ users (snd (@change_pin Reference.runtime other bank)) = users bank).
Proof.
  intros unknown other. split.
  - apply (proj1 (proj1 (@change_pin_unknown_old_pin Reference.runtime)
                    unknown bank eq_refl eq_refl eq_refl eq_refl)).
    reflexivity.
  - apply (proj2 (proj1 (@change_pin_unknown_old_pin Reference.runtime)
                    other bank eq_refl eq_refl eq_refl eq_refl) bob).
    + reflexivity.
    + discriminate.
Defined.

Lemma update_rows_pin u p t :
  update_rows u (pin_body p) t
  = List.map (fun r => if String.eqb (row_username r) u then set_pin p r else r) t.
Proof. reflexivity. Qed.





Lemma find_pin_spec p t r :
  find_pin p t = Some r -> In r t /\ row_pin r = p.
Proof.
  unfold find_pin. intros Hf. apply List.find_some in Hf as [Hin He].
  by apply String.eqb_eq in He.
Qed.

Lemma find_user_exists (r : UserRow) (t : list UserRow) :
  In r t -> exists r0, find_user (row_username r) t = Some r0.
Proof.
  unfold find_user. induction t as [|x t IH]; simpl; [done|].
  intros [->|Hin].
  - rewrite String.eqb_refl. eauto.
  - destruct (String.eqb (row_username x) (row_username r)); eauto.
Qed.









(** * Further properties of the handlers *)

(** ** Reasoning along the awaits *)

Section Respects.
Variable R : World -> World -> Prop.
Hypothesis R_refl : forall w, R w w.
Hypothesis R_trans : forall w1 w2 w3, R w1 w2 -> R w2 w3 -> R w1 w3.
Hypothesis R_called : forall rq t w, R w (called rq t w).

Lemma respects_ret {A} (a : A) : respects R (async_ret a).
Proof. intros w x w' [= <- <-]. apply R_refl. Qed.

Lemma respects_bind {A B} (m : Async A) (k : A -> Async B) :
  respects R m -> (forall a, respects R (k a)) -> respects R (async_bind m k).
Proof.
  intros Hm Hk w x w'. unfold async_bind.
  destruct (m w) as [[e|a] w1] eqn:Hmw.
  - intros [= <- <-]. by eapply Hm.
  - intros Hka. eapply R_trans; [by eapply Hm | by eapply Hk].
Qed.

Lemma respects_backendFetch rq : respects R (backendFetch rq).
Proof.
  intros w x w' Hcall.
  destruct (backendFetch_called Hcall) as [t ->]. apply R_called.
Qed.

Lemma respects_get_property v k : respects R (get_property v k).
Proof.
  intros w x w'. destruct v; simpl; unfold async_throw, async_ret;
    intros [= <- <-]; apply R_refl.
Qed.

Lemma respects_try_catch (m : Async Response) w :
  respects R m -> R w (snd (try_catch m w)).
Proof.
  intros Hm. unfold try_catch. destruct (m w) as [[e|r] w'] eqn:Hmw; simpl;
    by eapply Hm.
Qed.
End Respects.

Ltac respects_steps :=
  repeat match goal with
    | |- respects _ (async_ret _) => apply respects_ret
    | |- respects _ (backendFetch _) => apply respects_backendFetch
    | |- respects _ (get_property _ _) => apply respects_get_property
    | |- respects _ (async_bind _ _) => apply respects_bind
    | |- respects _ (if ?b then _ else _) => destruct b
    | |- forall _, respects _ _ => intros ?
    end.

Lemma respects_sessions_me `{JsRuntime} req w :
  sessions (snd (me req w)) = sessions w.
Proof.
  unfold me. destruct (negb _); [done|].
  apply (respects_try_catch (fun w w' => sessions w' = sessions w)).
  respects_steps; intros; simpl; congruence.
Qed.

Lemma respects_sessions_change_pin `{JsRuntime} req w :
  sessions (snd (change_pin req w)) = sessions w.
Proof.
  unfold change_pin. destruct (negb _); [done|]. destruct (_ || _); [done|].
  apply (respects_try_catch (fun w w' => sessions w' = sessions w)).
  respects_steps; intros; simpl; congruence.
Qed.

Lemma respects_sessions_chess_leaderboard req w :
  sessions (snd (chess_leaderboard req w)) = sessions w.
Proof.
  unfold chess_leaderboard.
  apply (respects_try_catch (fun w w' => sessions w' = sessions w)).
  respects_steps; intros; simpl; congruence.
Qed.

Lemma respects_sessions_transfer `{JsRuntime} req w :
  sessions (snd (transfer req w)) = sessions w.
Proof.
  destruct (transfer req w) as [res w'] eqn:Ht.
  by destruct (transfer_cases req w w' res Ht) as [Hs _].
Qed.

(** ** Logging in, asking who one is, logging out *)

(** Every run of the login handler: an error that leaves the session
    store alone, or the PIN resolved to the user named in the request and
    the session of the request now holds that name. *)
Lemma login_cases `{JsRuntime} (req : Request) (w w' : World) (res : Response) :
  login req w = (res, w') ->
  users w' = users w
  /\ ((status res <> 200 /\ sessions w' = sessions w)
      \/ exists row,
           truthy (body_field req "username") = true
           /\ is_undefined (body_field req "pin") = false
           /\ find_pin (ToString (body_field req "pin")) (users w) = Some row
           /\ body_field req "username" = JStr (row_username row)
           /\ res = res_json (JObj [("message", JStr "ok");
                                    ("user", user_to_dict row)])
           /\ w' = set_sessions
                     (<[sessionID req := body_field req "username"]> (sessions w))
                     (called (GET_users_pin (ToString (body_field req "pin")))
                        (users w) w)).
Proof.
  intros Hl. split; [by rewrite <- (login_users req w), Hl|].
  unfold login in Hl.
  destruct (negb (truthy (body_field req "username"))) eqn:Hu;
    [simpl in Hl; simplify_eq; left; split; [discriminate | reflexivity]|].
  destruct (is_undefined (body_field req "pin")) eqn:Hp;
    [simpl in Hl; simplify_eq; left; split; [discriminate | reflexivity]|].
  simpl in Hl. unfold try_catch, encodeURIComponent in Hl.
  await_call Hl.
  { apply backendFetch_read_throws in Hcall as [-> Hst]; [|reflexivity].
    simplify_eq. by left. }
  apply GET_users_pin_returns in Hcall as (row & Hrow & -> & ->).
  simpl in Hl. unfold async_bind at 1 in Hl. simpl in Hl.
  change (own_property _ "username") with (JStr (row_username row)) in Hl.
  destruct (strict_eq (JStr (row_username row)) (body_field req "username"))
    eqn:Heq; simpl in Hl.
  - apply strict_eq_JStr in Heq. simplify_eq. right. exists row.
    apply negb_false_iff in Hu. by repeat split.
  - unfold async_ret in Hl. simplify_eq. left.
    split; [discriminate | reflexivity].
Qed.

(** Every run of [/api/me]. *)
Lemma me_cases `{JsRuntime} (req : Request) (w w' : World) (res : Response) :
  me req w = (res, w') ->
  (truthy (session_user req w) = false
   /\ res = res_status_json 401 (error_obj "not authenticated") /\ w' = w)
  \/ (truthy (session_user req w) = true
      /\ w' = called (GET_users (ToString (session_user req w))) (users w) w
      /\ (status res <> 200
          \/ exists row,
               find_user (ToString (session_user req w)) (users w) = Some row
               /\ res = res_json (user_to_dict row))).
Proof.
  intros Hm. unfold me in Hm.
  destruct (truthy (session_user req w)) eqn:Hu; simpl in Hm;
    [|simplify_eq; by left].
  right. split; [reflexivity|]. unfold try_catch, encodeURIComponent in Hm.
  await_call Hm.
  { apply backendFetch_read_throws in Hcall as [-> Hst]; [|reflexivity].
    simplify_eq. auto. }
  apply GET_users_returns in Hcall as (row & Hrow & -> & ->).
  unfold async_ret in Hm. simplify_eq. split; [reflexivity|]. right. eauto.
Qed.

(** X1: [/api/me] only reads.  It never changes the user table or the
    session store; without a logged-in session it answers 401 "not
    authenticated" and does not call the backend; and a 200 answer is the
    record of the account whose username is the one stored in the session,
    fetched by exactly one backend call. *)
Theorem me_reads_the_session_user `{JsRuntime} (req : Request) (w : World) :
  users (snd (me req w)) = users w
  /\ sessions (snd (me req w)) = sessions w
  /\ (truthy (session_user req w) = false ->
      me req w = (res_status_json 401 (error_obj "not authenticated"), w))
  /\ (status (fst (me req w)) = 200 ->
      exists row,
        find_user (ToString (session_user req w)) (users w) = Some row
        /\ row_username row = ToString (session_user req w)
        /\ fst (me req w) = res_json (user_to_dict row)
        /\ calls (snd (me req w))
           = (calls w ++ [GET_users (ToString (session_user req w))])%list).
Proof.
  split; [apply me_users|]. split; [apply respects_sessions_me|].
  destruct (me req w) as [res w'] eqn:Hm. simpl.
  destruct (me_cases req w w' res Hm)
    as [(Hu & -> & ->) | (Hu & -> & Hres)].
  - split; [done|]. intros; discriminate.
  - split; [congruence|].
    destruct Hres as [Hst | (row & Hrow & ->)]; [done|].
    intros _. exists row. repeat split; try done.
    by apply find_user_name in Hrow.
Qed.

(** Alice asking who she is, and a visitor without a session. *)
Lemma me_reads_the_session_user_witness :
  @me Reference.runtime (post "sid-nobody" []) bank
    = (res_status_json 401 (error_obj "not authenticated"), bank)
  /\ exists row,
       find_user "alice" (users bank) = Some row
       /\ row_username row = "alice"
       /\ fst (@me Reference.runtime (post "sid-alice" []) bank)
          = res_json (user_to_dict row)
       /\ calls (snd (@me Reference.runtime (post "sid-alice" []) bank))
          = (calls bank ++ [GET_users "alice"])%list.
Proof.
  split.
  - apply (@me_reads_the_session_user Reference.runtime (post "sid-nobody" []) bank).
    reflexivity.
  - apply (@me_reads_the_session_user Reference.runtime (post "sid-alice" []) bank).
    reflexivity.
Defined.

(** X2: a login answers 200 only when the PIN, in its string form,
    resolves to an account and the username of the request is exactly
    that account's username, as a string; the session of the request then
    holds that username and the answer carries the account.  Any other
    answer leaves the session store as it was, and no login changes the
    user table. *)
Theorem login_is_sound `{JsRuntime} (req : Request) (w : World) :
  users (snd (login req w)) = users w
  /\ (status (fst (login req w)) = 200 ->
      exists row,
        find_pin (ToString (body_field req "pin")) (users w) = Some row
        /\ body_field req "username" = JStr (row_username row)
        /\ fst (login req w)
           = res_json (JObj [("message", JStr "ok"); ("user", user_to_dict row)])
        /\ sessions (snd (login req w))
           = <[sessionID req := JStr (row_username row)]> (sessions w))
  /\ (status (fst (login req w)) <> 200 ->
      sessions (snd (login req w)) = sessions w).
Proof.
  destruct (login req w) as [res w'] eqn:Hl. simpl.
  destruct (login_cases req w w' res Hl) as [Hu Hcases].
  split; [exact Hu|].
  destruct Hcases as [[Hst Hs] | (row & _ & _ & Hrow & Hname & -> & ->)].
  - split; [done|]. intros _. exact Hs.
  - split; [|intros Hne; by destruct Hne].
    intros _. exists row. rewrite Hname. by repeat split.
Qed.

(** Bob's login with the right PIN and with Carol's PIN. *)
Lemma login_is_sound_witness :
  let good := post "sid-bob" [("username", JStr "bob"); ("pin", JNum (Fin 2222))] in
  let bad := post "sid-bob" [("username", JStr "bob"); ("pin", JStr "3333")] in
  (exists row,
     find_pin "2222" (users bank) = Some row
     /\ JStr "bob" = JStr (row_username row)
     /\ fst (@login Reference.runtime good bank)
        = res_json (JObj [("message", JStr "ok"); ("user", user_to_dict row)])
     /\ sessions (snd (@login Reference.runtime good bank))
        = <["sid-bob" := JStr (row_username row)]> (sessions bank))
  /\ sessions (snd (@login Reference.runtime bad bank)) = sessions bank.
Proof.
  intros good bad. split.
  - apply (@login_is_sound Reference.runtime good bank). reflexivity.
  - apply (@login_is_sound Reference.runtime bad bank). discriminate.
Defined.

(** X3: after a successful login, [/api/me] on the same session answers
    with the record of the user that logged in, provided the backend
    answers the call. *)
Theorem login_then_me `{JsRuntime} (req req' : Request) (w : World) :
  status (fst (login req w)) = 200 ->
  sessionID req' = sessionID req ->
  List.hd None (outages (snd (login req w))) = None ->
  exists row,
    body_field req "username" = JStr (row_username row)
    /\ In row (users w)
    /\ fst (me req' (snd (login req w))) = res_json (user_to_dict row).
Proof.
  intros Hok Hsid Hup.
  destruct (login req w) as [res w'] eqn:Hl. simpl in *.
  destruct (login_cases req w w' res Hl)
    as [Hu [[Hst _] | (row & Htruthy & _ & Hrow & Hname & -> & ->)]]; [done|].
  apply find_pin_spec in Hrow as [Hin _].
  destruct (find_user_exists row (users w) Hin) as [row0 Hrow0].
  exists row0. rewrite (find_user_name _ _ _ Hrow0).
  split; [exact Hname|]. split; [by eapply find_user_In|].
  unfold me, session_user. rewrite Hsid. simpl.
  rewrite lookup_insert_eq. simpl. rewrite Htruthy. simpl.
  unfold try_catch, async_bind, encodeURIComponent.
  rewrite (backendFetch_up _ _ Hup). simpl.
  rewrite Hname. simpl. by rewrite Hrow0.
Qed.

(** Bob logs in and asks who he is. *)
Lemma login_then_me_witness :
  let req := post "sid-bob" [("username", JStr "bob"); ("pin", JStr "2222")] in
  exists row,
    JStr "bob" = JStr (row_username row)
    /\ In row (users bank)
    /\ fst (@me Reference.runtime (post "sid-bob" [])
              (snd (@login Reference.runtime req bank)))
       = res_json (user_to_dict row).
Proof.
  intros req.
  apply (@login_then_me Reference.runtime req (post "sid-bob" []) bank);
    reflexivity.
Defined.

(** X4: [/api/me], [/api/transfer] and [/api/change-pin] look at the
    session before anything else: a request whose session holds no user is
    answered 401 "not authenticated", whatever its body, with no backend
    call and no change.  A logout puts the session in that state, so after
    it those routes refuse the requests of that session; the logout itself
    touches neither the user table nor any other session. *)
Theorem logout_revokes_the_session `{JsRuntime} (req req' : Request) (w : World) :
  (forall route,
     needs_session route = true ->
     truthy (session_user req' w) = false ->
     handle route req' w
       = (res_status_json 401 (error_obj "not authenticated"), w))
  /\ (sessionID req' = sessionID req ->
      forall route,
        needs_session route = true ->
        handle route req' (snd (logout req w))
          = (res_status_json 401 (error_obj "not authenticated"),
             snd (logout req w)))
  /\ users (snd (logout req w)) = users w
  /\ calls (snd (logout req w)) = calls w
  /\ (forall sid, sid <> sessionID req ->
        sessions (snd (logout req w)) !! sid = sessions w !! sid).
Proof.
  assert (Hgate : forall w route,
            needs_session route = true ->
            truthy (session_user req' w) = false ->
            handle route req' w
              = (res_status_json 401 (error_obj "not authenticated"), w)).
  { intros w0 route Hroute Hout.
    destruct route; try discriminate;
      unfold handle, me, transfer, change_pin; by rewrite Hout. }
  split; [apply Hgate|].
  split; [|split; [done|split; [done|]]].
  - intros Hsid route Hroute. apply Hgate; [exact Hroute|].
    unfold session_user, logout. simpl. by rewrite Hsid, lookup_delete_eq.
  - intros sid Hne. unfold logout. simpl. by rewrite lookup_delete_ne.
Qed.

(** Alice logs out and tries to transfer. *)
Lemma logout_revokes_the_session_witness :
  let req := post "sid-alice" [] in
  let req' := post "sid-alice" [("to", JStr "bob"); ("amount", JNum (Fin 30))] in
  @handle Reference.runtime POST_api_transfer req' (snd (logout req bank))
  = (res_status_json 401 (error_obj "not authenticated"), snd (logout req bank)).
Proof.
  intros req req'.
  apply (proj1 (proj2 (@logout_revokes_the_session Reference.runtime req req' bank))
           eq_refl).
  reflexivity.
Defined.

(** X5: a request touches no session but its own.  Only a successful
    login and a logout change the session store at all, and they change
    only the entry of the request's session id. *)
Theorem sessions_are_isolated `{JsRuntime} (route : Route) (req : Request) (w : World) :
  (forall sid, sid <> sessionID req ->
     sessions (snd (handle route req w)) !! sid = sessions w !! sid)
  /\ (route <> POST_api_login -> route <> POST_api_logout ->
      sessions (snd (handle route req w)) = sessions w).
Proof.
  assert (Hkeep : route <> POST_api_login -> route <> POST_api_logout ->
                  sessions (snd (handle route req w)) = sessions w).
  { intros Hl Ho. destruct route; try done; simpl.
    - apply respects_sessions_me.
    - apply respects_sessions_transfer.
    - apply respects_sessions_change_pin.
    - apply respects_sessions_chess_leaderboard. }
  split; [|exact Hkeep].
  intros sid Hne. destruct route; try (rewrite Hkeep; done); simpl.
  - destruct (login req w) as [res w'] eqn:Hl. simpl.
    destruct (login_cases req w w' res Hl)
      as [_ [[_ ->] | (row & _ & _ & _ & _ & _ & ->)]]; [done|].
    simpl. by rewrite lookup_insert_ne.
  - unfold logout. simpl. by rewrite lookup_delete_ne.
Qed.

(** Bob's login leaves Alice's session alone, and her transfer leaves the
    whole store alone. *)
Lemma sessions_are_isolated_witness :
  let req := post "sid-bob" [("username", JStr "bob"); ("pin", JStr "2222")] in
  let req' := post "sid-alice" [("to", JStr "bob"); ("amount", JNum (Fin 30))] in
  sessions (snd (@handle Reference.runtime POST_api_login req bank)) !! "sid-alice"
    = sessions bank !! "sid-alice"
  /\ sessions (snd (@handle Reference.runtime POST_api_transfer req' bank))
     = sessions bank.
Proof.
  intros req req'. split.
  - apply (proj1 (@sessions_are_isolated Reference.runtime POST_api_login req bank)).
    discriminate.
  - apply (proj2 (@sessions_are_isolated Reference.runtime POST_api_transfer req' bank));
      discriminate.
Defined.

(** ** Backend outages *)

Lemma backendFetch_outage rq w f :
  is_read rq = true ->
  List.hd None (outages w) = Some f ->
  exists e, backendFetch rq w = (inl e, called rq (users w) w)
            /\ on_error e = outage_response f.
Proof.
  intros Hread Hf. unfold backendFetch, fetch. rewrite Hf.
  destruct f as [m| |m]; simpl.
  - by exists (OtherError m).
  - by exists (BackendError 503 JNull).
  - pose proof (backend_read rq (users w) Hread) as Ht.
    destruct (backend rq (users w)) as [r t]. simpl in *. subst t.
    by exists (OtherError m).
Qed.

Lemma try_catch_outage (rq : BackendRequest) (k : JsValue -> Async Response) w f :
  is_read rq = true ->
  List.hd None (outages w) = Some f ->
  try_catch (async_bind (backendFetch rq) k) w
  = (outage_response f, called rq (users w) w).
Proof.
  intros Hread Hf. destruct (backendFetch_outage rq w f Hread Hf) as (e & He & Hr).
  unfold try_catch, async_bind. by rewrite He, Hr.
Qed.

(** X6: when the backend cannot be reached, a handler stops at its first
    backend call and reports the failure through its catch block: status
    500 with the message of the fetch error when the connection fails or
    the response is lost, the backend's status with [{error: 'backend'}]
    when the answer has an empty body (a 503 here).  Nothing is written
    and no session changes.  The only other outcome is a 400 or 401 given
    before any backend call. *)
Theorem backend_outage_is_reported `{JsRuntime}
    (route : Route) (req : Request) (w : World) (f : Fault) :
  List.hd None (outages w) = Some f ->
  route <> POST_api_logout ->
  (snd (handle route req w) = w
   /\ (status (fst (handle route req w)) = 400
       \/ status (fst (handle route req w)) = 401))
  \/ (fst (handle route req w) = outage_response f
      /\ exists rq, snd (handle route req w) = called rq (users w) w).
Proof.
  intros Hf Hroute. destruct route; try done; simpl.
  - unfold login. destruct (_ || _); [left; simpl; auto|].
    right. rewrite (try_catch_outage _ _ w f) by (exact Hf || reflexivity).
    simpl. eauto.
  - unfold me. destruct (negb _); [left; simpl; auto|].
    right. rewrite (try_catch_outage _ _ w f) by (exact Hf || reflexivity).
    simpl. eauto.
  - unfold transfer. destruct (negb _); [left; simpl; auto|].
    destruct (_ || _); [left; simpl; auto|].
    destruct (_ || _); [left; simpl; auto|].
    right. rewrite (try_catch_outage _ _ w f) by (exact Hf || reflexivity).
    simpl. eauto.
  - unfold change_pin. destruct (negb _); [left; simpl; auto|].
    destruct (_ || _); [left; simpl; auto|].
    right. rewrite (try_catch_outage _ _ w f) by (exact Hf || reflexivity).
    simpl. eauto.
  - unfold chess_leaderboard.
    right. rewrite (try_catch_outage _ _ w f) by (exact Hf || reflexivity).
    simpl. eauto.
Qed.

(** Alice's transfer while the connection to the backend is refused. *)
Lemma backend_outage_is_reported_witness :
  let w := {| users := users bank; sessions := sessions bank;
              outages := [Some (ConnectionFailed "ECONNREFUSED")];
              calls := [] |} in
  let req := post "sid-alice" [("to", JStr "bob"); ("amount", JNum (Fin 30))] in
  (snd (@handle Reference.runtime POST_api_transfer req w) = w
   /\ (status (fst (@handle Reference.runtime POST_api_transfer req w)) = 400
       \/ status (fst (@handle Reference.runtime POST_api_transfer req w)) = 401))
  \/ (fst (@handle Reference.runtime POST_api_transfer req w)
        = res_status_json 500 (error_obj "ECONNREFUSED")
      /\ exists rq,
           snd (@handle Reference.runtime POST_api_transfer req w)
             = called rq (users w) w).
Proof.
  intros w req.
  apply (@backend_outage_is_reported Reference.runtime POST_api_transfer req w
           (ConnectionFailed "ECONNREFUSED")).
  - reflexivity.
  - discriminate.
Defined.

(** ** What a transfer and a change of PIN leave alone *)

Lemma update_rows_kvrcoin u q t :
  update_rows u (kvrcoin_body (Fin q)) t
  = List.map (fun r => if String.eqb (row_username r) u
                       then set_kvrcoin q r else r) t.
Proof. reflexivity. Qed.

Lemma update_rows_kvrcoin_columns u q t :
  List.map row_username (update_rows u (kvrcoin_body (Fin q)) t)
    = List.map row_username t
  /\ List.map row_pin (update_rows u (kvrcoin_body (Fin q)) t)
     = List.map row_pin t
  /\ List.map row_chess_points (update_rows u (kvrcoin_body (Fin q)) t)
     = List.map row_chess_points t.
Proof.
  rewrite update_rows_kvrcoin, !List.map_map.
  repeat split; apply List.map_ext; intros r;
    by destruct (String.eqb (row_username r) u).
Qed.

Lemma update_rows_pin_columns u p t :
  List.map row_username (update_rows u (pin_body p) t)
    = List.map row_username t
  /\ List.map row_kvrcoin (update_rows u (pin_body p) t)
     = List.map row_kvrcoin t
  /\ List.map row_chess_points (update_rows u (pin_body p) t)
     = List.map row_chess_points t.
Proof.
  rewrite update_rows_pin, !List.map_map.
  repeat split; apply List.map_ext; intros r;
    by destruct (String.eqb (row_username r) u).
Qed.

(** X7: a transfer, whatever its outcome, changes nothing but the balances
    of the sender and of the receiver: the accounts, their order, their
    PINs and their chess points are as before, and so is the record of
    every account that is neither the sender nor the receiver. *)
Theorem transfer_changes_only_two_balances `{JsRuntime} (req : Request) (w : World) :
  List.map row_username (users (snd (transfer req w)))
    = List.map row_username (users w)
  /\ List.map row_pin (users (snd (transfer req w))) = List.map row_pin (users w)
  /\ List.map row_chess_points (users (snd (transfer req w)))
     = List.map row_chess_points (users w)
  /\ forall v,
       v <> ToString (session_user req w) ->
       v <> ToString (body_field req "to") ->
       find_user v (users (snd (transfer req w))) = find_user v (users w).
Proof.
  destruct (transfer req w) as [res w'] eqn:Ht. simpl.
  destruct (transfer_cases req w w' res Ht) as [_ Hcases].
  destruct Hcases as [[-> _] | [(_ & -> & _) | Hrun]]; try done.
  destruct Hrun as (s & r & _ & _ & _ & _ & _ & Hrun).
  destruct Hrun as [(-> & _) | (d & _ & Hrun)]; [done|].
  destruct Hrun as [(-> & _) | (c & _ & -> & _)]; unfold with_balance.
  - destruct (update_rows_kvrcoin_columns (ToString (session_user req w))
                d (users w)) as (-> & -> & ->).
    repeat split. intros v Hs _. by apply find_user_update_other.
  - destruct (update_rows_kvrcoin_columns (ToString (body_field req "to")) c
                (update_rows (ToString (session_user req w))
                   (kvrcoin_body (Fin d)) (users w)))
      as (-> & -> & ->).
    destruct (update_rows_kvrcoin_columns (ToString (session_user req w))
                d (users w)) as (-> & -> & ->).
    repeat split. intros v Hs Hr.
    by rewrite !find_user_update_other.
Qed.

(** Carol is untouched by Alice's transfer to Bob. *)
Lemma transfer_changes_only_two_balances_witness :
  let req := post "sid-alice" [("to", JStr "bob"); ("amount", JNum (Fin 30))] in
  find_user "carol" (users (snd (@transfer Reference.runtime req bank)))
  = find_user "carol" (users bank).
Proof.
  intros req.
  apply (@transfer_changes_only_two_balances Reference.runtime req bank);
    discriminate.
Defined.

(** X8: a change of PIN, whatever its outcome, changes no balance and no
    chess points, adds and removes no account, and leaves the record of
    every account other than the session's user as it was. *)
Theorem change_pin_changes_only_the_pin `{JsRuntime} (req : Request) (w : World) :
  List.map row_username (users (snd (change_pin req w)))
    = List.map row_username (users w)
  /\ List.map row_kvrcoin (users (snd (change_pin req w)))
     = List.map row_kvrcoin (users w)
  /\ List.map row_chess_points (users (snd (change_pin req w)))
     = List.map row_chess_points (users w)
  /\ forall v,
       v <> ToString (session_user req w) ->
       find_user v (users (snd (change_pin req w))) = find_user v (users w).
Proof.
  destruct (change_pin req w) as [res w'] eqn:Hc. simpl.
  destruct (change_pin_cases req w w' res Hc)
    as [[-> _] | (r & r0 & _ & _ & _ & _ & Hs & _ & _ & -> & _)]; [done|].
  destruct (update_rows_pin_columns (row_username r)
              (ToString (body_field req "new_pin")) (users w)) as (-> & -> & ->).
  repeat split. intros v Hv. apply find_user_update_other.
  by rewrite Hs in Hv.
Qed.

(** Bob is untouched by Alice's change of PIN. *)
Lemma change_pin_changes_only_the_pin_witness :
  let req := post "sid-alice"
               [("old_pin", JStr "1111"); ("new_pin", JStr "4444")] in
  find_user "bob" (users (snd (@change_pin Reference.runtime req bank)))
  = find_user "bob" (users bank).
Proof.
  intros req.
  apply (@change_pin_changes_only_the_pin Reference.runtime req bank).
  discriminate.
Defined.

(** X9: the account in the 200 answer of a transfer is the sender's record
    as the table holds it after the transfer, so the balance it shows is
    the sender's new balance. *)
Theorem transfer_answers_the_refreshed_sender `{JsRuntime}
    (req : Request) (w : World) :
  status (fst (transfer req w)) = 200 ->
  exists row,
    find_user (ToString (session_user req w)) (users (snd (transfer req w)))
      = Some row
    /\ fst (transfer req w)
       = res_json (JObj [("message", JStr "ok"); ("user", user_to_dict row)])
    /\ balance (ToString (session_user req w)) (users (snd (transfer req w)))
       = Some (row_kvrcoin row).
Proof.
  intros Hok. destruct (transfer req w) as [res w'] eqn:Ht. simpl in *.
  destruct (transfer_cases req w w' res Ht) as [_ Hcases].
  destruct Hcases as [[_ [Hst|Hst]] | [(_ & _ & Hst & _) | Hrun]];
    try (rewrite Hok in Hst; discriminate); try done.
  destruct Hrun as (s & r & _ & _ & _ & _ & _ & Hrun).
  destruct Hrun as [(_ & Hst & _) | (d & _ & Hrun)]; [done|].
  destruct Hrun as [(_ & Hst & _) | (c & _ & _ & Hrun)]; [done|].
  destruct Hrun as [(Hst & _) | (_ & Hres)]; [done|].
  destruct (Hres Hok) as (row & Hrow & ->).
  exists row. unfold balance. by rewrite Hrow.
Qed.

(** Alice's transfer of 30 to Bob answers with her record at 70. *)
Lemma transfer_answers_the_refreshed_sender_witness :
  let req := post "sid-alice" [("to", JStr "bob"); ("amount", JNum (Fin 30))] in
  exists row,
    find_user "alice" (users (snd (@transfer Reference.runtime req bank)))
      = Some row
    /\ fst (@transfer Reference.runtime req bank)
       = res_json (JObj [("message", JStr "ok"); ("user", user_to_dict row)])
    /\ balance "alice" (users (snd (@transfer Reference.runtime req bank)))
       = Some (row_kvrcoin row).
Proof.
  intros req.
  apply (@transfer_answers_the_refreshed_sender Reference.runtime req bank).
  reflexivity.
Defined.

(** ** Error answers and [postJSON] *)

Lemma returns_ret {A} (P : A -> Prop) (a : A) : P a -> returns P (async_ret a).
Proof. intros Ha w a' w' [= <- <-]. exact Ha. Qed.

Lemma returns_bind {A B} (P : B -> Prop) (m : Async A) (k : A -> Async B) :
  (forall a, returns P (k a)) -> returns P (async_bind m k).
Proof.
  intros Hk w b w'. unfold async_bind.
  destruct (m w) as [[e|a] w1]; [discriminate|]. apply Hk.
Qed.

Lemma on_error_has_body e : error_has_body (on_error e).
Proof.
  intros _. destruct e as [st b|m]; simpl; [|reflexivity].
  destruct (negb (st =? 0)); simpl; [|reflexivity].
  unfold js_or. by destruct (truthy b) eqn:Hb.
Qed.

Lemma try_catch_has_body (m : Async Response) w :
  returns error_has_body m -> error_has_body (fst (try_catch m w)).
Proof.
  intros Hm. unfold try_catch. destruct (m w) as [[e|r] w'] eqn:Hmw; simpl.
  - apply on_error_has_body.
  - by eapply Hm.
Qed.

Ltac returns_steps :=
  repeat match goal with
    | |- returns _ (async_ret _) => apply returns_ret
    | |- returns _ (async_bind _ _) => apply returns_bind
    | |- returns _ (if ?b then _ else _) => destruct b
    | |- forall _, returns _ _ => intros ?
    end.

(** X10: every answer of the server whose status is not 2xx carries a
    truthy JSON body, also when the backend's own error body was empty.
    [postJSON] of the pages therefore throws the server's body itself and
    never its fallback [{error: 'request failed'}]; a 2xx answer is
    returned as it is. *)
Theorem error_answers_have_a_body `{JsRuntime}
    (route : Route) (req : Request) (w : World) :
  error_has_body (fst (handle route req w))
  /\ postJSON (fst (handle route req w))
     = if res_ok (fst (handle route req w))
       then inr (json (fst (handle route req w)))
       else inl (json (fst (handle route req w))).
Proof.
  assert (Hbody : error_has_body (fst (handle route req w))).
  { destruct route; simpl.
    - unfold login. destruct (_ || _); [by intros _|].
      apply try_catch_has_body. returns_steps; try by intros _.
      intros w1 r w2 [= <- <-]. discriminate.
    - intros Hok. discriminate.
    - unfold me. destruct (negb _); [by intros _|].
      apply try_catch_has_body. returns_steps. intros Hok. discriminate.
    - unfold transfer. destruct (negb _); [by intros _|].
      destruct (_ || _); [by intros _|]. destruct (_ || _); [by intros _|].
      apply try_catch_has_body. returns_steps; by intros _.
    - unfold change_pin. destruct (negb _); [by intros _|].
      destruct (_ || _); [by intros _|].
      apply try_catch_has_body. returns_steps; try by intros _.
      intros Hok. discriminate.
    - unfold chess_leaderboard.
      apply try_catch_has_body. returns_steps. intros Hok. discriminate. }
  split; [exact Hbody|].
  unfold postJSON, js_or.
  destruct (res_ok (fst (handle route req w))) eqn:Hok; simpl; [reflexivity|].
  by rewrite (Hbody Hok).
Qed.

(** ** The options of a backend call *)

(** X11: [backendFetch] always sends the configured API key, replacing a
    key the caller may have put in the headers; it declares the body as
    JSON exactly when there is a non-empty body and the caller named no
    content type; it keeps every other header, the method and the body;
    and preparing the options twice is the same as preparing them once. *)
Theorem backendFetch_sets_the_api_key (API_KEY : string) (opts : FetchOpts) :
  let given := default ∅ (opt_headers opts) in
  let sent := default ∅ (opt_headers (backendFetch_opts API_KEY opts)) in
  is_Some (opt_headers (backendFetch_opts API_KEY opts))
  /\ sent !! "X-API-Key" = Some API_KEY
  /\ (forall k, k <> "X-API-Key" -> k <> "Content-Type" -> sent !! k = given !! k)
  /\ (forall c, given !! "Content-Type" = Some c -> c <> "" ->
        sent !! "Content-Type" = Some c)
  /\ (forall b, opt_body opts = Some b -> b <> "" ->
        (given !! "Content-Type" = None \/ given !! "Content-Type" = Some "") ->
        sent !! "Content-Type" = Some "application/json")
  /\ ((opt_body opts = None \/ opt_body opts = Some "") ->
      sent !! "Content-Type" = given !! "Content-Type")
  /\ opt_method (backendFetch_opts API_KEY opts) = opt_method opts
  /\ opt_body (backendFetch_opts API_KEY opts) = opt_body opts
  /\ backendFetch_opts API_KEY (backendFetch_opts API_KEY opts)
     = backendFetch_opts API_KEY opts.
Proof.
  intros given sent.
  assert (Hct : (<["X-API-Key" := API_KEY]> given : gmap string string)
                  !! "Content-Type" = given !! "Content-Type")
    by by rewrite lookup_insert_ne.
  unfold sent, backendFetch_opts. fold given. simpl. rewrite Hct.
  split; [by eexists|].
  split.
  { destruct (_ && _); [rewrite lookup_insert_ne by done|];
      by rewrite lookup_insert_eq. }
  split.
  { intros k Hk Hc. destruct (_ && _); [rewrite lookup_insert_ne by done|];
      by rewrite lookup_insert_ne. }
  split.
  { intros c Hc Hne. rewrite Hc. simpl.
    apply String.eqb_neq in Hne. rewrite Hne, andb_false_r.
    by rewrite lookup_insert_ne, Hc. }
  split.
  { intros b Hb Hne Hnone. rewrite Hb. simpl.
    apply String.eqb_neq in Hne. rewrite Hne. simpl.
    destruct Hnone as [-> | ->]; simpl; by rewrite lookup_insert_eq. }
  split.
  { intros [-> | ->]; simpl; by rewrite lookup_insert_ne. }
  split; [reflexivity|]. split; [reflexivity|].
  f_equal. f_equal.
  destruct (truthy (default JUndefined (JStr <$> opt_body opts))) eqn:Hb; simpl.
  - destruct (truthy (default JUndefined (JStr <$> given !! "Content-Type")))
      eqn:Hc; simpl.
    + rewrite insert_insert_eq. by rewrite Hct, Hc.
    + rewrite lookup_insert_ne by done. rewrite lookup_insert_eq. simpl.
      apply insert_id. rewrite lookup_insert_ne by done.
      apply lookup_insert_eq.
  - by rewrite insert_insert_eq.
Qed.

(** A PATCH with a body and no headers, as [/api/transfer] issues it. *)
Lemma backendFetch_sets_the_api_key_witness :
  let opts := {| opt_method := Some "PATCH"; opt_body := Some "{}";
                 opt_headers := None |} in
  default ∅ (opt_headers (backendFetch_opts "secret" opts)) !! "Content-Type"
  = Some "application/json".
Proof.
  intros opts.
  apply (proj1 (proj2 (proj2 (proj2 (proj2
           (backendFetch_sets_the_api_key "secret" opts))))) "{}").
  - reflexivity.
  - discriminate.
  - left. reflexivity.
Defined.

(** ** The leaderboard of the second page script *)

Lemma leaderboard_window_bounds (len idx : Z) :
  0 <= len -> -1 <= idx < len ->
  0 <= fst (leaderboard_window len idx) <= snd (leaderboard_window len idx)
  /\ snd (leaderboard_window len idx) <= len
  /\ snd (leaderboard_window len idx) - fst (leaderboard_window len idx)
     = Z.min len 5
  /\ (0 <= idx ->
      fst (leaderboard_window len idx) <= idx < snd (leaderboard_window len idx)).
Proof.
  intros Hlen Hidx. unfold leaderboard_window.
  destruct (0 <=? idx) eqn:H0; simpl; [|lia].
  destruct (Z.min len (idx + 3) - Z.max 0 (idx - 2) <? 5) eqn:H5; simpl; [|lia].
  destruct (Z.max 0 (idx - 2) =? 0) eqn:Hs; simpl; [lia|].
  destruct (Z.min len (idx + 3) =? len) eqn:He; simpl; lia.
Qed.

(** X12: the slice of the leaderboard that is shown lies within the board,
    holds five rows, or the whole board when it is shorter, and contains
    the row of the current user whenever that user is on the board; for a
    user who is not, it is the top of the board. *)
Theorem leaderboard_window_around_user (len idx : Z) :
  0 <= len -> -1 <= idx < len ->
  let start := fst (leaderboard_window len idx) in
  let end_ := snd (leaderboard_window len idx) in
  0 <= start <= end_ /\ end_ <= len
  /\ end_ - start = Z.min len 5
  /\ (0 <= idx -> start <= idx < end_)
  /\ (idx = -1 -> start = 0).
Proof.
  intros Hlen Hidx start end_.
  destruct (leaderboard_window_bounds len idx Hlen Hidx) as (Hs & He & Hn & Hc).
  repeat split; try tauto; try lia.
  intros ->. reflexivity.
Qed.

(** The user at index 8 of a board of ten rows sees rows 5 to 9. *)
Lemma leaderboard_window_around_user_witness :
  let start := fst (leaderboard_window 10 8) in
  let end_ := snd (leaderboard_window 10 8) in
  0 <= start <= end_ /\ end_ <= 10
  /\ end_ - start = Z.min 10 5
  /\ (0 <= 8 -> start <= 8 < end_)
  /\ (8 = -1 -> start = 0).
Proof. apply (leaderboard_window_around_user 10 8); lia. Defined.

Local Arguments strict_eq : simpl never.

Lemma read_property_object v k :
  is_object v = true -> exists x, read_property v k = Some x.
Proof. destruct v; try discriminate. simpl. eauto. Qed.

(** On JSON objects [findIndex] does not throw; it answers -1 or the index
    of a row whose username is the current user's. *)
Lemma findIndex_username_objects cu rows i :
  Forall (fun r => is_object r = true) rows ->
  exists idx,
    findIndex_username cu rows i = Some idx
    /\ (idx = -1
        \/ (i <= idx < i + Z.of_nat (length rows)
            /\ exists row u,
                 rows !! Z.to_nat (idx - i) = Some row
                 /\ read_property row "username" = Some u
                 /\ strict_eq u cu = true)).
Proof.
  intros Hobj. revert i. induction Hobj as [|r rows Hr Hobj IH]; intros i; simpl.
  - eauto.
  - destruct (read_property_object r "username" Hr) as [u Hu]. rewrite Hu.
    destruct (strict_eq u cu) eqn:Heq.
    + exists i. split; [reflexivity|]. right. split; [lia|].
      exists r, u. by rewrite Z.sub_diag.
    + destruct (IH (i + 1)) as (idx & -> & Hidx). exists idx.
      split; [reflexivity|]. destruct Hidx as [-> | (Hrange & row & u' & Hrow & Hx)];
        [by left|].
      right. split; [lia|]. exists row, u'. split; [|exact Hx].
      replace (Z.to_nat (idx - i)) with (S (Z.to_nat (idx - (i + 1)))) by lia.
      exact Hrow.
Qed.

(** The loop over rows that are JSON objects appends one item per index
    and completes. *)
Lemma leaderboard_items_objects `{JsRuntime} cu rows (i : Z) (n : nat) :
  Forall (fun r => is_object r = true) rows ->
  0 <= i -> i + Z.of_nat n <= Z.of_nat (length rows) ->
  exists items,
    leaderboard_items cu rows i n = (items, true)
    /\ length items = n
    /\ forall (j : nat) row,
         (j < n)%nat -> rows !! (Z.to_nat i + j)%nat = Some row ->
         leaderboard_item cu (i + Z.of_nat j) row = items !! j.
Proof.
  intros Hobj. revert i. induction n as [|n IH]; intros i Hi Hn; simpl.
  - exists []. repeat split. intros j row Hj. lia.
  - assert (Hlt : (Z.to_nat i < length rows)%nat) by lia.
    destruct (lookup_lt_is_Some_2 rows _ Hlt) as [row Hrow].
    assert (Hneg : (i <? 0) = false) by lia. rewrite Hneg, Hrow. simpl.
    assert (Hrobj : is_object row = true).
    { rewrite Forall_forall in Hobj. apply Hobj.
      by eapply list_elem_of_lookup_2. }
    destruct (read_property_object row "username" Hrobj) as [u Hu].
    destruct (read_property_object row "chess_points" Hrobj) as [p Hp].
    unfold leaderboard_item at 1. rewrite Hu, Hp.
    destruct (IH (i + 1)) as (items & Hrun & Hlen & Hitems); [lia | lia |].
    rewrite Hrun.
    eexists. split; [reflexivity|]. split; [simpl; by rewrite Hlen|].
    intros [|j] row' Hj Hrow'.
    + rewrite Nat.add_0_r in Hrow'. rewrite Hrow in Hrow'. simplify_eq.
      rewrite Z.add_0_r. unfold leaderboard_item. by rewrite Hu, Hp.
    + simpl.
      replace (i + Z.of_nat (S j)) with (i + 1 + Z.of_nat j) by lia.
      apply Hitems; [lia|].
      replace (Z.to_nat (i + 1) + j)%nat with (Z.to_nat i + S j)%nat by lia.
      exact Hrow'.
Qed.

(** X13: for a board that is a non-empty array of JSON objects,
    [loadLeaderboard] runs to its end and lists five rows, or all of them
    when the board is shorter; the items are consecutive rows of the board
    in their order, each numbered with its position on the whole board;
    and when the current user is on the board, the user's row is among the
    items and carries the class "current-user". *)
Theorem loadLeaderboard_lists_the_window `{JsRuntime}
    (currentUser : JsValue) (rows : list JsValue) :
  Forall (fun r => is_object r = true) rows ->
  rows <> [] ->
  exists (items : list Item) (start : nat),
    loadLeaderboard currentUser (JArr rows) = Listed items true
    /\ length items = Nat.min (length rows) 5
    /\ (start + length items <= length rows)%nat
    /\ (forall (j : nat) row,
          (j < length items)%nat ->
          rows !! (start + j)%nat = Some row ->
          items !! j = leaderboard_item currentUser (Z.of_nat (start + j)) row)
    /\ (forall idx,
          truthy currentUser = true ->
          findIndex_username currentUser rows 0 = Some idx ->
          0 <= idx ->
          exists item,
            (start <= Z.to_nat idx)%nat
            /\ items !! (Z.to_nat idx - start)%nat = Some item
            /\ className item = "current-user").
Proof.
  intros Hobj Hne.
  assert (Hlen : 0 < Z.of_nat (length rows)) by (destruct rows; [done | simpl; lia]).
  destruct (findIndex_username_objects currentUser rows 0 Hobj)
    as (found & Hfound & Hrange).
  set (idx := if truthy currentUser then found else -1).
  assert (Hidx : (if truthy currentUser
                  then findIndex_username currentUser rows 0
                  else Some (-1)) = Some idx).
  { unfold idx. by destruct (truthy currentUser). }
  assert (Hin : -1 <= idx < Z.of_nat (length rows)).
  { unfold idx. destruct (truthy currentUser); [|lia].
    destruct Hrange as [-> | [Hr _]]; lia. }
  destruct (leaderboard_window_bounds (Z.of_nat (length rows)) idx)
    as (Hs & He & Hsize & Hcontains); [lia | exact Hin |].
  destruct (leaderboard_window (Z.of_nat (length rows)) idx) as [start end_] eqn:Hw.
  simpl in Hs, He, Hsize, Hcontains.
  destruct (leaderboard_items_objects currentUser rows start
              (Z.to_nat (end_ - start)) Hobj)
    as (items & Hitems & Hcount & Hrows); [lia | lia |].
  exists items, (Z.to_nat start).
  split.
  { unfold loadLeaderboard.
    assert (Hz : (Z.of_nat (length rows) =? 0) = false) by lia.
    by rewrite Hz, Hidx, Hw, Hitems. }
  split; [lia|]. split; [lia|]. split.
  { intros j row Hj Hrow. symmetry.
    replace (Z.of_nat (Z.to_nat start + j)) with (start + Z.of_nat j) by lia.
    apply Hrows; [lia | exact Hrow]. }
  intros found' Htruthy Hfound' Hpos.
  rewrite Hfound in Hfound'. simplify_eq.
  assert (Hi : idx = found') by (unfold idx; by rewrite Htruthy).
  destruct Hrange as [-> | (Hr & row & u & Hrow & Hu & Heq)]; [lia|].
  rewrite Z.sub_0_r in Hrow.
  assert (Hrobj : is_object row = true).
  { rewrite Forall_forall in Hobj. apply Hobj. by eapply list_elem_of_lookup_2. }
  destruct (read_property_object row "chess_points" Hrobj) as [p Hp].
  specialize (Hcontains ltac:(lia)).
  eexists. split; [lia|]. split.
  - rewrite <- (Hrows (Z.to_nat found' - Z.to_nat start)%nat row); [|lia|].
    + unfold leaderboard_item. rewrite Hu, Hp. reflexivity.
    + replace (Z.to_nat start + (Z.to_nat found' - Z.to_nat start))%nat
        with (Z.to_nat found') by lia.
      exact Hrow.
  - simpl. by rewrite Heq.
Qed.

(** A board of six rows seen by the user of its last row. *)
Lemma loadLeaderboard_lists_the_window_witness :
  let row (u : string) :=
    JObj [("username", JStr u); ("chess_points", JNum (Fin 1))] in
  let rows := [row "a"; row "b"; row "c"; row "d"; row "e"; row "f"] in
  exists (items : list Item) (start : nat),
    @loadLeaderboard Reference.runtime (JStr "f") (JArr rows) = Listed items true
    /\ length items = Nat.min (length rows) 5
    /\ (start + length items <= length rows)%nat
    /\ (forall (j : nat) r,
          (j < length items)%nat ->
          rows !! (start + j)%nat = Some r ->
          items !! j
          = @leaderboard_item Reference.runtime (JStr "f") (Z.of_nat (start + j)) r)
    /\ (forall idx,
          truthy (JStr "f") = true ->
          findIndex_username (JStr "f") rows 0 = Some idx ->
          0 <= idx ->
          exists item,
            (start <= Z.to_nat idx)%nat
            /\ items !! (Z.to_nat idx - start)%nat = Some item
            /\ className item = "current-user").
Proof.
  intros row rows.
  apply (@loadLeaderboard_lists_the_window Reference.runtime (JStr "f") rows).
  - repeat constructor.
  - discriminate.
Defined.

(** ** The forms of the pages against the server *)

Lemma JSON_number_finite `{JsRuntime} (n : JsNumber) :
  js_isFinite (ToNumber (JSON_number n)) = true
  /\ ToNumber (JSON_number n) = (if js_isFinite n then n else Fin 0).
Proof. by destruct n. Qed.

(** X14: the amount that the transfer form of the pages sends always
    reaches the server as a finite number, because a number that is not
    finite is serialised as [null] and read back as 0.  Unless the text
    typed is a positive finite number, the server answers 400 or 401 and
    makes no backend call; +Infinity in particular cannot get past the
    amount check through the form. *)
Theorem transfer_form_sends_finite_amounts `{JsRuntime}
    (sid to amount : string) (w : World) :
  let req := {| sessionID := sid; body := transferForm_body to amount |} in
  body_field req "to" = JStr to
  /\ js_isFinite (ToNumber (body_field req "amount")) = true
  /\ ((forall q, StringToNumber amount = Fin q -> (q <= 0)%Q) ->
      snd (transfer req w) = w
      /\ (status (fst (transfer req w)) = 400
          \/ status (fst (transfer req w)) = 401)).
Proof.
  intros req.
  assert (Hamount : body_field req "amount"
                    = JSON_number (StringToNumber amount)) by reflexivity.
  split; [reflexivity|]. rewrite Hamount.
  destruct (JSON_number_finite (StringToNumber amount)) as [Hfin Hnum].
  split; [exact Hfin|].
  intros Hbad.
  assert (Hinvalid : js_isNaN (ToNumber (JSON_number (StringToNumber amount)))
                     || js_le (ToNumber (JSON_number (StringToNumber amount)))
                          (Fin 0) = true).
  { rewrite Hnum. destruct (StringToNumber amount) as [| | |q] eqn:Hn;
      simpl; try reflexivity.
    apply js_le_0. by apply Hbad. }
  unfold transfer. rewrite Hamount, Hinvalid.
  destruct (negb (truthy (session_user req w))); [simpl; auto|].
  destruct (negb (truthy (body_field req "to")) || _); simpl; auto.
Qed.

(** "Infinity" and "abc" typed into the amount field. *)
Lemma transfer_form_sends_finite_amounts_witness :
  let inf := {| sessionID := "sid-alice";
                body := @transferForm_body Reference.runtime "bob" "Infinity" |} in
  let abc := {| sessionID := "sid-alice";
                body := @transferForm_body Reference.runtime "bob" "abc" |} in
  (snd (@transfer Reference.runtime inf bank) = bank
   /\ (status (fst (@transfer Reference.runtime inf bank)) = 400
       \/ status (fst (@transfer Reference.runtime inf bank)) = 401))
  /\ (snd (@transfer Reference.runtime abc bank) = bank
      /\ (status (fst (@transfer Reference.runtime abc bank)) = 400
          \/ status (fst (@transfer Reference.runtime abc bank)) = 401)).
Proof.
  intros inf abc. split.
  - apply (@transfer_form_sends_finite_amounts Reference.runtime
             "sid-alice" "bob" "Infinity" bank).
    intros q Hq. vm_compute in Hq. discriminate.
  - apply (@transfer_form_sends_finite_amounts Reference.runtime
             "sid-alice" "bob" "abc" bank).
    intros q Hq. vm_compute in Hq. discriminate.
Defined.

(** X15: the change-PIN dialog of the first page script and the
    change-PIN form of the third send only [new_pin].  The server refuses
    every such request, with 400 "new_pin and old_pin required" when the
    session is logged in and 401 otherwise, before any backend call: no
    PIN can be changed from those two pages. *)
Theorem change_pin_forms_without_old_pin_are_refused `{JsRuntime}
    (sid new_pin confirm_pin : string) (b : JsValue) (w : World) :
  changePinModalForm_body new_pin confirm_pin = Some b
  \/ b = changePinForm_body new_pin ->
  let req := {| sessionID := sid; body := b |} in
  snd (change_pin req w) = w
  /\ (truthy (session_user req w) = true ->
      fst (change_pin req w)
        = res_status_json 400 (error_obj "new_pin and old_pin required"))
  /\ (truthy (session_user req w) = false ->
      fst (change_pin req w)
        = res_status_json 401 (error_obj "not authenticated")).
Proof.
  intros Hb req.
  assert (Hbody : b = JObj [("new_pin", JSON_number (StringToNumber new_pin))]).
  { destruct Hb as [Hb | ->]; [|reflexivity].
    unfold changePinModalForm_body in Hb.
    destruct (_ || _); [discriminate|]. destruct (negb _); [discriminate|].
    by simplify_eq. }
  assert (Hold : body_field req "old_pin" = JUndefined)
    by (unfold req; rewrite Hbody; reflexivity).
  unfold change_pin. rewrite Hold.
  destruct (truthy (session_user req w)); simpl.
  - rewrite orb_true_r. repeat split; intros; done.
  - repeat split; intros; done.
Qed.

(** Alice types 4444 twice into the dialog of the first page. *)
Lemma change_pin_forms_without_old_pin_are_refused_witness :
  let b := JObj [("new_pin", JNum (Fin 4444))] in
  let req := {| sessionID := "sid-alice"; body := b |} in
  snd (@change_pin Reference.runtime req bank) = bank
  /\ (truthy (session_user req bank) = true ->
      fst (@change_pin Reference.runtime req bank)
        = res_status_json 400 (error_obj "new_pin and old_pin required"))
  /\ (truthy (session_user req bank) = false ->
      fst (@change_pin Reference.runtime req bank)
        = res_status_json 401 (error_obj "not authenticated")).
Proof.
  intros b req.
  apply (@change_pin_forms_without_old_pin_are_refused Reference.runtime
           "sid-alice" "4444" "4444" b bank).
  left. reflexivity.
Defined.

(** ** The writes a handler can issue *)

Lemma calls_only_refl P w : calls_only P w w.
Proof. exists []. by rewrite app_nil_r. Qed.

Lemma calls_only_trans P w1 w2 w3 :
  calls_only P w1 w2 -> calls_only P w2 w3 -> calls_only P w1 w3.
Proof.
  intros (l1 & H1 & Hl1) (l2 & H2 & Hl2). exists (l1 ++ l2)%list.
  split; [by rewrite H2, H1, app_assoc | by apply Forall_app].
Qed.

Lemma calls_only_backendFetch (P : BackendRequest -> Prop) rq :
  P rq -> respects (calls_only P) (backendFetch rq).
Proof.
  intros Hrq w x w' Hb. exists [rq]. split; [|by repeat constructor].
  by destruct (backendFetch_called Hb) as [t ->].
Qed.

Ltac calls_only_steps :=
  repeat match goal with
    | |- respects _ (async_ret _) => apply respects_ret
    | |- respects _ (get_property _ _) => apply respects_get_property
    | |- respects _ (backendFetch _) => apply calls_only_backendFetch
    | |- respects _ (async_bind _ _) => apply respects_bind
    | |- respects _ (if ?b then _ else _) => destruct b
    | |- forall _, respects _ _ => intros ?
    | |- forall _, calls_only _ _ _ => apply calls_only_refl
    | |- forall _ _ _, calls_only _ _ _ -> calls_only _ _ _ -> calls_only _ _ _ =>
        apply calls_only_trans
    end.

(** X16: the writes a request can cause are confined.  [/api/login],
    [/api/logout], [/api/me] and the leaderboard never send a PATCH to the
    backend; [/api/transfer] sends PATCHes only of the kvrcoin of the
    session's user or of the account named in [to]; [/api/change-pin] sends
    a PATCH only of the pin of the session's user, to the string form of
    [new_pin].  This holds for every request and every outcome. *)
Theorem writes_are_confined `{JsRuntime} (route : Route) (req : Request) (w : World) :
  calls_only (allowed_call route req w) w (snd (handle route req w)).
Proof.
  set (P := allowed_call route req w).
  assert (Hpatch_transfer : forall u n,
            route = POST_api_transfer ->
            u = ToString (session_user req w)
            \/ u = ToString (body_field req "to") ->
            P (PATCH_users u (kvrcoin_body n))).
  { intros u n -> Hu. simpl. eauto. }
  assert (Hpatch_pin :
            route = POST_api_change_pin ->
            P (PATCH_users (ToString (session_user req w))
                 (pin_body (ToString (body_field req "new_pin"))))).
  { intros ->. by simpl. }
  assert (Hget : forall u, P (GET_users u)) by done.
  assert (Hget_pin : forall u, P (GET_users_pin u)) by done.
  assert (Hboard : P GET_leaderboard_chess) by done.
  clearbody P. destruct route; simpl.
  - unfold login. destruct (_ || _); [apply calls_only_refl|].
    apply (respects_try_catch (calls_only P)).
    calls_only_steps; try apply Hget_pin.
    intros w1 x w2 Hrun. cbv beta in Hrun. simplify_eq.
    exists []. simpl. split; [by rewrite app_nil_r | constructor].
  - exists []. simpl. split; [by rewrite app_nil_r | constructor].
  - unfold me. destruct (negb _); [apply calls_only_refl|].
    apply (respects_try_catch (calls_only P)).
    calls_only_steps; apply Hget.
  - unfold transfer. destruct (negb _); [apply calls_only_refl|].
    destruct (_ || _); [apply calls_only_refl|].
    destruct (_ || _); [apply calls_only_refl|].
    apply (respects_try_catch (calls_only P)). unfold encodeURIComponent.
    calls_only_steps; try apply Hget; apply Hpatch_transfer; auto.
  - unfold change_pin. destruct (negb _); [apply calls_only_refl|].
    destruct (_ || _); [apply calls_only_refl|].
    apply (respects_try_catch (calls_only P)). unfold encodeURIComponent.
    calls_only_steps; try apply Hget_pin. by apply Hpatch_pin.
  - unfold chess_leaderboard.
    apply (respects_try_catch (calls_only P)).
    calls_only_steps; apply Hboard.
Qed.
